(** * perfstats: the PerformanceStats aggregator of perfstats.py

    A shallow embedding of the class [PerformanceStats] (construction:
    directory listing, [getStats], [sortStats]; on demand: [subdivideomp])
    and the properties of its record sequences. *)

From Stdlib Require Import String Ascii List Bool Arith ZArith QArith Lia.
From Stdlib Require Import Permutation Sorted DecimalString.
Import ListNotations.

Local Open Scope list_scope.

(** ** Exceptions and the error monad *)

(** The exceptions the code can raise.  (In Python UnicodeDecodeError is a
    subclass of ValueError; it is kept apart here.) *)
Inductive exn : Type :=
| OSError (name : string)          (* os.listdir / open failed on [name] *)
| IndexError                       (* a subscript out of range *)
| ValueError (token : string)      (* int() / float() refused [token], or
                                      a file name holds a null byte *)
| AssertionError (msg : string)    (* the assert of getStats *)
| UnicodeDecodeError (name : string). (* the bytes of [name] are no text *)

(** How a call into the operating system fails: with an OSError (no such
    file or directory, a directory in place of a file, no permission, a
    read error); with a UnicodeDecodeError (the file opens and its bytes
    are no text in the default encoding: only reading fails so); or with
    the ValueError Python raises for a name that holds a null byte. *)
Inductive io_error : Type :=
| NotAccessible
| NotDecodable
| BadName.

(** The exception of a failed call on [name]. *)
Definition raised (err : io_error) (name : string) : exn :=
  match err with
  | NotAccessible => OSError name
  | NotDecodable => UnicodeDecodeError name
  | BadName => ValueError name
  end.

(** What a call into the operating system does: it returns, or fails. *)
Inductive outcome (A : Type) : Type :=
| Returns (a : A)
| Fails (err : io_error).
Arguments Returns {A} a.
Arguments Fails {A} err.

Inductive result (A : Type) : Type :=
| Ok (a : A)
| Raise (e : exn).
Arguments Ok {A} a.
Arguments Raise {A} e.

Definition bind {A B : Type} (m : result A) (k : A -> result B) : result B :=
  match m with
  | Ok a => k a
  | Raise e => Raise e
  end.

Notation "x <- m ;; k" := (bind m (fun x => k))
  (at level 61, m at next level, right associativity).
Notation "' p <- m ;; k" := (bind m (fun p => k))
  (at level 61, p pattern, m at next level, right associativity).

(** A [for] loop whose body may raise: the state is threaded left to right
    and the first exception ends the loop. *)
Fixpoint foldM {S X : Type} (body : S -> X -> result S) (l : list X) (s : S)
  : result S :=
  match l with
  | [] => Ok s
  | x :: l' => s' <- body s x ;; foldM body l' s'
  end.

(** A list comprehension whose element expression may raise. *)
Fixpoint mapM {X Y : Type} (f : X -> result Y) (l : list X) : result (list Y) :=
  match l with
  | [] => Ok []
  | x :: l' => y <- f x ;; ys <- mapM f l' ;; Ok (y :: ys)
  end.

(** ** Python sequences and strings *)

(** [l[i]] for a non-negative [i]. *)
Definition getitem {A : Type} (l : list A) (i : nat) : result A :=
  match nth_error l i with
  | Some x => Ok x
  | None => Raise IndexError
  end.

(** [l[-k]] for [k >= 1]. *)
Definition getitem_neg {A : Type} (l : list A) (k : nat) : result A :=
  if (k <=? length l)%nat then getitem l (length l - k) else Raise IndexError.

Module PyStr.

(** [str.isspace] on one character (code points below 256). *)
Definition isspace (c : ascii) : bool :=
  let n := nat_of_ascii c in
  ((9 <=? n) && (n <=? 13) || (28 <=? n) && (n <=? 32)
   || (n =? 133) || (n =? 160))%nat.

Definition is_empty (s : string) : bool :=
  match s with EmptyString => true | String _ _ => false end.

(** [s.split()]: the maximal runs of non-whitespace characters.
    [cur] is the token being read. *)
Fixpoint split_from (cur : string) (s : string) : list string :=
  match s with
  | EmptyString => if is_empty cur then [] else [cur]
  | String c s' =>
      if isspace c
      then if is_empty cur then split_from EmptyString s'
           else cur :: split_from EmptyString s'
      else split_from (cur ++ String c EmptyString)%string s'
  end.

Definition split (s : string) : list string := split_from EmptyString s.

(** [sub in s]. *)
Fixpoint contains (sub s : string) : bool :=
  String.prefix sub s
  || match s with
     | EmptyString => false
     | String _ s' => contains sub s'
     end.

(** [str(n)] for a length. *)
Definition of_nat (n : nat) : string := NilZero.string_of_uint (Nat.to_uint n).

End PyStr.

(** ** The object *)

(** The attributes of a [PerformanceStats] instance.  The sequences change
    their element types over the object's life: string tokens while
    collecting, numbers after [sortStats], and lists of lists after
    [subdivideomp]; the record is therefore parametric in the three
    sequence types.  [ngpus] exists only when [gpuruns] is set; otherwise
    the field is never read nor written and stays at its initial value. *)
Record PerformanceStats (Names Ints Floats : Type) : Type := mkStats {
  path : string;
  gpuruns : bool;
  verbose : bool;
  files : Names;
  nprocs : Ints;
  nthreads : Ints;
  performance : Floats;
  ncpus : Ints;
  ngpus : Ints
}.
Arguments mkStats {Names Ints Floats}.
Arguments path {Names Ints Floats}.
Arguments gpuruns {Names Ints Floats}.
Arguments verbose {Names Ints Floats}.
Arguments files {Names Ints Floats}.
Arguments nprocs {Names Ints Floats}.
Arguments nthreads {Names Ints Floats}.
Arguments performance {Names Ints Floats}.
Arguments ncpus {Names Ints Floats}.
Arguments ngpus {Names Ints Floats}.

(** While collecting: every sequence holds the tokens as read. *)
Definition RawStats : Type :=
  PerformanceStats (list string) (list string) (list string).
(** After [sortStats]: flat numeric sequences. *)
Definition FlatStats : Type :=
  PerformanceStats (list string) (list Z) (list Q).
(** After a subdivision: one bucket per OpenMP thread count. *)
Definition NestedStats : Type :=
  PerformanceStats (list (list string)) (list (list Z)) (list (list Q)).

(** What [print] has written, oldest line first. *)
Definition console : Type := list string.

Section Setters.
Context {Names Ints Floats : Type}.
Implicit Type s : PerformanceStats Names Ints Floats.

Definition set_nprocs s (v : Ints) :=
  mkStats (path s) (gpuruns s) (verbose s) (files s) v (nthreads s)
          (performance s) (ncpus s) (ngpus s).
Definition set_nthreads s (v : Ints) :=
  mkStats (path s) (gpuruns s) (verbose s) (files s) (nprocs s) v
          (performance s) (ncpus s) (ngpus s).
Definition set_performance s (v : Floats) :=
  mkStats (path s) (gpuruns s) (verbose s) (files s) (nprocs s) (nthreads s)
          v (ncpus s) (ngpus s).
Definition set_ngpus s (v : Ints) :=
  mkStats (path s) (gpuruns s) (verbose s) (files s) (nprocs s) (nthreads s)
          (performance s) (ncpus s) v.
End Setters.

(** ** Construction: listing, [getStats], [sortStats] *)

(** np.int64 arithmetic: the product wraps around in two's complement.
    The arrays of parsed counts have this element type as long as the
    counts themselves fit in 64 bits, which the model takes for granted. *)
Definition wrap64 (z : Z) : Z :=
  ((z + 2 ^ 63) mod 2 ^ 64 - 2 ^ 63)%Z.
Definition np_mul (a b : Z) : Z := wrap64 (a * b).

(** The message of the assert in [getStats]. *)
Definition consistency_msg : string :=
  "Number of performance entries should be the same!"%string.

(** [len(nprocs) == len(nthreads) == len(performance)]. *)
Definition counts_agree (s : RawStats) : bool :=
  (length (nprocs s) =? length (nthreads s))%nat
  && (length (nthreads s) =? length (performance s))%nat.

(** The line is one of the markers [getStats] reacts to. *)
Definition recognized (gpu : bool) (line : string) : bool :=
  PyStr.contains "Using" line && PyStr.contains "OpenMP" line
  || PyStr.contains "Using" line && PyStr.contains "MPI" line
  || PyStr.contains "Performance:" line
  || gpu && PyStr.contains "compatible GPU" line
  || PyStr.contains "Fatal error" line.

(** The world outside the class: the file system as [os.listdir(name)]
    and [open(name).readlines()] see it (the listing or the lines, or the
    way the call fails), Python's [int] and [float] on a token ([None]:
    ValueError), numpy's [argsort] on a float array, and the order in which
    Python iterates over [set(l)].
    Floats are the rationals they denote (performance values are finite).
    Of [argsort] in its default kind numpy documents [argsort_spec] below
    and no stability; of the iteration over a set Python promises
    [set_iter_spec] and no order. *)
Record World : Type := mkWorld {
  os_listdir : string -> outcome (list string);
  open_readlines : string -> outcome (list string);
  py_int : string -> option Z;
  py_float : string -> option Q;
  np_argsort : list Q -> list nat;
  set_iter : list Z -> list Z
}.

(** What a call returned, if it did. *)
Definition returned {A : Type} (o : outcome A) : option A :=
  match o with
  | Returns a => Some a
  | Fails _ => None
  end.

(** The listing of a directory, and the lines of a file, when the call
    returns ([None]: it raises). *)
Definition listdir (w : World) (name : string) : option (list string) :=
  returned (os_listdir w name).
Definition readlines (w : World) (name : string) : option (list string) :=
  returned (open_readlines w name).

(** The object as [__init__] sets it up from the directory listing: the
    names that contain [.log], and empty sequences. *)
Definition fresh (path : string) (gpuruns verbose : bool) (names : list string)
  : RawStats :=
  mkStats path gpuruns verbose (filter (PyStr.contains ".log") names)
          [] [] [] [] [].

Section Construction.

Variable w : World.

(** [print(msg)] under [if self.verbose]. *)
Definition trace (s : RawStats) (out : console) (msg : string) : console :=
  if verbose s then out ++ [msg] else out.

(** The body of [for line in lines]: the first matching marker wins. *)
Definition scan_line (acc : RawStats * console) (line : string)
  : result (RawStats * console) :=
  let (s, out) := acc in
  if PyStr.contains "Using" line && PyStr.contains "OpenMP" line then
    tok <- getitem (PyStr.split line) 1 ;;
    Ok (set_nthreads s (nthreads s ++ [tok]),
        trace s out ("Number of OpenMP threads: " ++ tok)%string)
  else if PyStr.contains "Using" line && PyStr.contains "MPI" line then
    tok <- getitem (PyStr.split line) 1 ;;
    Ok (set_nprocs s (nprocs s ++ [tok]),
        trace s out ("Number of MPI processes: " ++ tok)%string)
  else if PyStr.contains "Performance:" line then
    tok <- getitem (PyStr.split line) 1 ;;
    Ok (set_performance s (performance s ++ [tok]), out)
  else if gpuruns s && PyStr.contains "compatible GPU" line then
    tok <- getitem_neg (PyStr.split line) 3 ;;
    Ok (set_ngpus s (ngpus s ++ [tok]),
        trace s out ("Number of GPUs: " ++ tok)%string)
  else if PyStr.contains "Fatal error" line then
    Ok (s, trace s out "MD run stopped with a fatal error..."%string)
  else Ok (s, out).

(** The body of [for file in self.files]: the file is opened under the
    name [self.path + file]. *)
Definition scan_file (acc : RawStats * console) (file : string)
  : result (RawStats * console) :=
  let (s, out) := acc in
  let out := trace s out ("Opening " ++ file ++ "...")%string in
  match open_readlines w (path s ++ file)%string with
  | Fails err => Raise (raised err (path s ++ file)%string)
  | Returns lines => foldM scan_line lines (s, out)
  end.

(** The loop of [getStats], before its assert. *)
Definition collect (s : RawStats) : result (RawStats * console) :=
  foldM scan_file (files s) (s, []).

Definition getStats (s : RawStats) : result (RawStats * console) :=
  '(s', out) <- collect s ;;
  if counts_agree s' then Ok (s', out)
  else Raise (AssertionError consistency_msg).

(** [[int(x) for x in tokens]] and [[float(x) for x in tokens]]. *)
Definition convert {A : Type} (conv : string -> option A) (tok : string)
  : result A :=
  match conv tok with
  | Some v => Ok v
  | None => Raise (ValueError tok)
  end.

(** [a[indeces]] on a numpy array: the elements at the given positions,
    IndexError when a position is out of bounds. *)
Definition fancy_index {A : Type} (a : list A) (indeces : list nat)
  : result (list A) :=
  mapM (getitem a) indeces.

(** [[nprocs[i] * nthreads[i] for i in range(len(nprocs))]]. *)
Definition cpu_products (procs threads : list Z) : result (list Z) :=
  mapM (fun i => p <- getitem procs i ;; t <- getitem threads i ;;
                 Ok (np_mul p t))
       (seq 0 (length procs)).

Definition sortStats (s : RawStats) : result FlatStats :=
  procs <- mapM (convert (py_int w)) (nprocs s) ;;
  threads <- mapM (convert (py_int w)) (nthreads s) ;;
  perfs <- mapM (convert (py_float w)) (performance s) ;;
  let indeces := np_argsort w perfs in
  files' <- fancy_index (files s) indeces ;;
  procs' <- fancy_index procs indeces ;;
  threads' <- fancy_index threads indeces ;;
  perfs' <- fancy_index perfs indeces ;;
  cpus <- cpu_products procs' threads' ;;
  if gpuruns s then
    gpus <- mapM (convert (py_int w)) (ngpus s) ;;
    gpus' <- fancy_index gpus indeces ;;
    Ok (mkStats (path s) (gpuruns s) (verbose s)
                files' procs' threads' perfs' cpus gpus')
  else
    Ok (mkStats (path s) (gpuruns s) (verbose s)
                files' procs' threads' perfs' cpus []).

(** [PerformanceStats(path, gpuruns, verbose)]. *)
Definition init (path : string) (gpuruns verbose : bool)
  : result (FlatStats * console) :=
  match os_listdir w path with
  | Fails err => Raise (raised err path)
  | Returns names =>
      '(s1, out) <- getStats (fresh path gpuruns verbose names) ;;
      s2 <- sortStats s1 ;;
      Ok (s2, out)
  end.

End Construction.

(** ** On demand: [subdivideomp] *)

(** The two shapes the object takes: every sequence flat (after
    construction) or every sequence a list of buckets (after a
    subdivision).  The tag is what [isinstance(self.nthreads[0], list)]
    reads off the first element of [nthreads]. *)
Inductive Stats : Type :=
| Flat (s : FlatStats)
| Nested (s : NestedStats).

(** [ll[-1].append(x)]. *)
Fixpoint append_last {A : Type} (ll : list (list A)) (x : A)
  : result (list (list A)) :=
  match ll with
  | [] => Raise IndexError
  | [b] => Ok [b ++ [x]]
  | b :: ll' => r <- append_last ll' x ;; Ok (b :: r)
  end.

(** [ll[0][i]]. *)
Definition getitem0 {A : Type} (ll : list (list A)) (i : nat) : result A :=
  l <- getitem ll 0 ;; getitem l i.

(** [del(ll[0])]. *)
Definition del0 {A : Type} (ll : list A) : result (list A) :=
  match ll with
  | [] => Raise IndexError
  | _ :: ll' => Ok ll'
  end.

(** [enumerate(l)]. *)
Definition enumerate {A : Type} (l : list A) : list (nat * A) :=
  combine (seq 0 (length l)) l.

(** The body of [for statId, stat in enumerate(self.nthreads[0])]. *)
Definition route (omp : Z) (s : NestedStats) (it : nat * Z)
  : result NestedStats :=
  let (statId, stat) := it in
  if (stat =? omp)%Z then
    threads <- append_last (nthreads s) stat ;;
    f <- getitem0 (files s) statId ;;
    files' <- append_last (files s) f ;;
    p <- getitem0 (nprocs s) statId ;;
    procs <- append_last (nprocs s) p ;;
    c <- getitem0 (ncpus s) statId ;;
    cpus <- append_last (ncpus s) c ;;
    q <- getitem0 (performance s) statId ;;
    perfs <- append_last (performance s) q ;;
    if gpuruns s then
      g <- getitem0 (ngpus s) statId ;;
      gpus <- append_last (ngpus s) g ;;
      Ok (mkStats (path s) (gpuruns s) (verbose s)
                  files' procs threads perfs cpus gpus)
    else
      Ok (mkStats (path s) (gpuruns s) (verbose s)
                  files' procs threads perfs cpus (ngpus s))
  else Ok s.

(** The body of [for ompId, omp in enumerate(ompset)]: a new empty bucket
    at the end of every sequence, then the scan of bucket 0. *)
Definition bucket (s : NestedStats) (omp : Z) : result NestedStats :=
  let s1 := mkStats (path s) (gpuruns s) (verbose s)
                    (files s ++ [[]]) (nprocs s ++ [[]])
                    (nthreads s ++ [[]]) (performance s ++ [[]])
                    (ncpus s ++ [[]])
                    (if gpuruns s then ngpus s ++ [[]] else ngpus s) in
  all <- getitem (nthreads s1) 0 ;;
  foldM (route omp) (enumerate all) s1.

(** [self.x = [self.x]] for every sequence. *)
Definition wrap (s : FlatStats) : NestedStats :=
  mkStats (path s) (gpuruns s) (verbose s)
          [files s] [nprocs s] [nthreads s] [performance s] [ncpus s]
          (if gpuruns s then [ngpus s] else []).

(** [del(self.x[0])] for every sequence. *)
Definition unwrap (s : NestedStats) : result NestedStats :=
  files' <- del0 (files s) ;;
  procs <- del0 (nprocs s) ;;
  threads <- del0 (nthreads s) ;;
  perfs <- del0 (performance s) ;;
  cpus <- del0 (ncpus s) ;;
  if gpuruns s then
    gpus <- del0 (ngpus s) ;;
    Ok (mkStats (path s) (gpuruns s) (verbose s)
                files' procs threads perfs cpus gpus)
  else
    Ok (mkStats (path s) (gpuruns s) (verbose s)
                files' procs threads perfs cpus (ngpus s)).

Definition already_msg : string :=
  "Performance stats are subdivided already!"%string.
Definition subdividing_msg (n : nat) : string :=
  ("Subdividing the stats into " ++ PyStr.of_nat n ++ " sets...")%string.
Definition no_subdivision_msg : string :=
  "No subdivision is performed."%string.

Section Subdivision.

Variable w : World.

Definition subdivideomp (st : Stats) : result (Stats * console) :=
  match st with
  | Nested s =>
      match nthreads s with
      | [] => Raise IndexError
      | _ :: _ => Ok (st, [already_msg])
      end
  | Flat s =>
      match nthreads s with
      | [] => Raise IndexError
      | _ :: _ =>
          let ompset := set_iter w (nthreads s) in
          let out := [subdividing_msg (length ompset)] in
          if (1 <? length ompset)%nat then
            s1 <- foldM bucket ompset (wrap s) ;;
            s2 <- unwrap s1 ;;
            Ok (Nested s2, out)
          else Ok (st, out ++ [no_subdivision_msg])
      end
  end.

End Subdivision.

(** ** Reference instances of the outside world

    Executable stand-ins used to run the model on concrete directories. *)
Module Ref.

(** The value of a run of decimal digits, most significant first. *)
Definition digit (c : ascii) : option Z :=
  let n := nat_of_ascii c in
  if ((48 <=? n) && (n <=? 57))%nat then Some (Z.of_nat (n - 48)) else None.

Fixpoint digits (acc : Z) (s : string) : option Z :=
  match s with
  | EmptyString => Some acc
  | String c s' =>
      match digit c with
      | Some d => digits (10 * acc + d) s'
      | None => None
      end
  end.

(** [int] on an unsigned decimal token. *)
Definition int_of_token (tok : string) : option Z :=
  match tok with
  | EmptyString => None
  | _ => digits 0 tok
  end.

(** Splits [s] at its first ['.']. *)
Fixpoint cut_dot (s : string) : string * option string :=
  match s with
  | EmptyString => (EmptyString, None)
  | String c s' =>
      if Ascii.eqb c "."%char then (EmptyString, Some s')
      else let (a, b) := cut_dot s' in (String c a, b)
  end.

(** [float] on a token of the form [ddd] or [ddd.ddd]. *)
Definition float_of_token (tok : string) : option Q :=
  match cut_dot tok with
  | (ip, None) =>
      match int_of_token ip with Some n => Some (inject_Z n) | None => None end
  | (ip, Some fp) =>
      match int_of_token ip, digits 0 fp with
      | Some n, Some f =>
          Some (Qred (inject_Z n
                      + Qmake f (Pos.pow 10 (Pos.of_nat (String.length fp)))))
      | _, _ => None
      end
  end.

(** Insertion of index [i] into a list of indices ordered by their value
    in [v], after every index whose value is not larger. *)
Fixpoint insert_index (v : list Q) (i : nat) (l : list nat) : list nat :=
  match l with
  | [] => [i]
  | j :: l' =>
      if Qle_bool (nth j v 0) (nth i v 0) then j :: insert_index v i l'
      else i :: j :: l'
  end.

(** Insertion sort of the indices [l] by their value in [v], taking them
    from the last to the first. *)
Definition sort_indices (v : list Q) (l : list nat) : list nat :=
  fold_right (insert_index v) [] l.

(** An argsort that keeps equal values in index order
    ([np.argsort(v, kind="stable")]). *)
Definition argsort_stable (v : list Q) : list nat :=
  sort_indices v (rev (seq 0 (length v))).

(** An argsort that puts equal values in reverse index order. *)
Definition argsort_reversing (v : list Q) : list nat :=
  sort_indices v (seq 0 (length v)).

(** Set iteration in order of first occurrence. *)
Fixpoint first_seen (l : list Z) : list Z :=
  match l with
  | [] => []
  | x :: l' => x :: filter (fun y => negb (y =? x)%Z) (first_seen l')
  end.

End Ref.


(** ** Specification vocabulary *)

(** What numpy promises of [argsort]: the result lists every position of
    the array once, and reading the array through it gives the values in
    ascending order. *)
Definition argsort_spec (v : list Q) (indeces : list nat) : Prop :=
  Permutation indeces (seq 0 (length v))
  /\ Sorted Qle (map (fun i => nth i v 0) indeces).

(** What a stable kind promises besides: positions of equal values come in
    increasing order. *)
Definition argsort_stable_on (v : list Q) (indeces : list nat) : Prop :=
  StronglySorted (fun i j => nth i v 0 == nth j v 0 -> (i < j)%nat) indeces.

(** [after] reads [before] through [indeces], each element converted. *)
Definition lockstep {A B : Type} (conv : A -> option B) (indeces : list nat)
  (before : list A) (after : list B) : Prop :=
  Forall2 (fun i y => exists x, nth_error before i = Some x /\ conv x = Some y)
          indeces after.

(** The records of four parallel sequences, position by position. *)
Definition rows {A B C D : Type} (fs : list A) (ps : list B) (ts : list C)
  (qs : list D) : list (A * B * C * D) :=
  combine (combine (combine fs ps) ts) qs.

(** The records whose performance equals [q], in sequence order. *)
Definition with_performance {R : Type} (q : Q) (l : list (R * Q))
  : list (R * Q) :=
  filter (fun r => Qeq_bool (snd r) q) l.

(** The values of [vals] at the positions where [keys] holds [k]. *)
Definition pick {A : Type} (k : Z) (keys : list Z) (vals : list A) : list A :=
  map snd (filter (fun kv => (fst kv =? k)%Z) (combine keys vals)).

(** All elements of a bucket are the same. *)
Definition uniform (b : list Z) : Prop :=
  forall x y, In x b -> In y b -> x = y.

(** The exception is the failure of an assert. *)
Definition is_assertion (e : exn) : bool :=
  match e with AssertionError _ => true | _ => false end.

(** The world with another content of the file system. *)
Definition with_readlines (w : World) (r : string -> outcome (list string))
  : World :=
  mkWorld (os_listdir w) r (py_int w) (py_float w) (np_argsort w) (set_iter w).

(** The exception [os.listdir(name)] and [open(name).readlines()] raise
    when they fail. *)
Definition listdir_exn (w : World) (name : string) : exn :=
  match os_listdir w name with
  | Fails err => raised err name
  | Returns _ => OSError name
  end.
Definition readlines_exn (w : World) (name : string) : exn :=
  match open_readlines w name with
  | Fails err => raised err name
  | Returns _ => OSError name
  end.

(** The exception comes from reading a file: an I/O error or a decoding
    error. *)
Definition is_read_error (e : exn) : bool :=
  match e with
  | OSError _ | UnicodeDecodeError _ => true
  | _ => false
  end.


(** What the iteration over [set(l)] promises: every value of [l] once. *)
Definition set_iter_spec (l ompset : list Z) : Prop :=
  NoDup ompset /\ forall x, In x ompset <-> In x l.

(** The number of distinct values of [l]. *)
Definition distinct_count (l : list Z) : nat := length (nodup Z.eq_dec l).

(** The positions at which [keys] holds [k], in increasing order. *)
Definition positions (k : Z) (keys : list Z) : list nat :=
  map fst (filter (fun ik => (snd ik =? k)%Z) (enumerate keys)).

(** [ll[b][j]], when both subscripts are in range. *)
Definition at2 {A : Type} (ll : list (list A)) (b j : nat) : option A :=
  match nth_error ll b with
  | Some l => nth_error l j
  | None => None
  end.

(** The partition of a flat record set along [ompset]: bucket [b] of every
    sequence holds the values of the records whose thread count is the
    [b]-th element of [ompset], in record order. *)
Definition subdivided (ompset : list Z) (s : FlatStats) : NestedStats :=
  mkStats (path s) (gpuruns s) (verbose s)
          (map (fun omp => pick omp (nthreads s) (files s)) ompset)
          (map (fun omp => pick omp (nthreads s) (nprocs s)) ompset)
          (map (fun omp => pick omp (nthreads s) (nthreads s)) ompset)
          (map (fun omp => pick omp (nthreads s) (performance s)) ompset)
          (map (fun omp => pick omp (nthreads s) (ncpus s)) ompset)
          (if gpuruns s
           then map (fun omp => pick omp (nthreads s) (ngpus s)) ompset
           else []).


(** [len(self.nthreads)], in either shape. *)
Definition len_nthreads (st : Stats) : nat :=
  match st with
  | Flat s => length (nthreads s)
  | Nested s => length (nthreads s)
  end.


(** ** The summary string *)

(** [len(self.files)], in either shape. *)
Definition len_files (st : Stats) : nat :=
  match st with
  | Flat s => length (files s)
  | Nested s => length (files s)
  end.

(** The text [__str__] builds around a count. *)
Definition summary (n : nat) : string :=
  ("PerformanceStats object containing data from " ++ PyStr.of_nat n
   ++ " files.")%string.

(** [str(stats)]. *)
Definition __str__ (st : Stats) : string := summary (len_files st).

(** ** Marker lines *)

(** The branch of [getStats] a line takes. *)
Inductive marker : Type :=
| Threads | Procs | Perf | Gpus | Fatal | NoMarker.

Definition marker_eqb (a b : marker) : bool :=
  match a, b with
  | Threads, Threads | Procs, Procs | Perf, Perf | Gpus, Gpus
  | Fatal, Fatal | NoMarker, NoMarker => true
  | _, _ => false
  end.

Definition marker_of (gpu : bool) (line : string) : marker :=
  if PyStr.contains "Using" line && PyStr.contains "OpenMP" line then Threads
  else if PyStr.contains "Using" line && PyStr.contains "MPI" line then Procs
  else if PyStr.contains "Performance:" line then Perf
  else if gpu && PyStr.contains "compatible GPU" line then Gpus
  else if PyStr.contains "Fatal error" line then Fatal
  else NoMarker.

(** The token a marker line contributes: [line.split()[1]], and
    [line.split()[-3]] for a GPU line. *)
Definition token_of (m : marker) (line : string) : string :=
  let toks := PyStr.split line in
  match m with
  | Gpus => nth (length toks - 3) toks EmptyString
  | _ => nth 1 toks EmptyString
  end.

(** The line has the tokens its marker asks for. *)
Definition enough_tokens (m : marker) (line : string) : bool :=
  match m with
  | Threads | Procs | Perf => (2 <=? length (PyStr.split line))%nat
  | Gpus => (3 <=? length (PyStr.split line))%nat
  | Fatal | NoMarker => true
  end.

(** The tokens the lines of marker [m] contribute, in line order. *)
Definition tokens (gpu : bool) (m : marker) (lines : list string)
  : list string :=
  map (token_of m) (filter (fun l => marker_eqb (marker_of gpu l) m) lines).

(** The object with another [verbose] flag. *)
Definition set_verbose {Names Ints Floats : Type}
  (s : PerformanceStats Names Ints Floats) (v : bool) :=
  mkStats (path s) (gpuruns s) v (files s) (nprocs s) (nthreads s)
          (performance s) (ncpus s) (ngpus s).

(** A result of construction or collection without its console output and
    its [verbose] flag. *)
Definition quiet {Names Ints Floats : Type}
  (r : result (PerformanceStats Names Ints Floats * console))
  : result (PerformanceStats Names Ints Floats) :=
  match r with
  | Ok (s, _) => Ok (set_verbose s false)
  | Raise e => Raise e
  end.


(** [s'] is [s] after the marker lines of [lines] have been collected:
    every data sequence has grown by the tokens of its marker, in line
    order, and nothing else has changed. *)
Definition collected_from (lines : list string) (s s' : RawStats) : Prop :=
  path s' = path s /\ gpuruns s' = gpuruns s /\ verbose s' = verbose s
  /\ files s' = files s /\ ncpus s' = ncpus s
  /\ nthreads s' = nthreads s ++ tokens (gpuruns s) Threads lines
  /\ nprocs s' = nprocs s ++ tokens (gpuruns s) Procs lines
  /\ performance s' = performance s ++ tokens (gpuruns s) Perf lines
  /\ ngpus s' = ngpus s ++ tokens (gpuruns s) Gpus lines.

(** The file opens under the name the code uses, and each of its marker
    lines has the tokens its marker asks for. *)
Definition readable (w : World) (p : string) (gpu : bool) (file : string)
  : Prop :=
  exists text,
    readlines w (p ++ file)%string = Some text
    /\ Forall (fun l => enough_tokens (marker_of gpu l) l = true) text.


(** What [getStats] prints for one line, in verbose mode. *)
Definition message_of (m : marker) (line : string) : list string :=
  match m with
  | Threads => [("Number of OpenMP threads: " ++ token_of m line)%string]
  | Procs => [("Number of MPI processes: " ++ token_of m line)%string]
  | Gpus => [("Number of GPUs: " ++ token_of m line)%string]
  | Fatal => ["MD run stopped with a fatal error..."%string]
  | Perf | NoMarker => []
  end.

(** What [getStats] prints for one file, in verbose mode. *)
Definition trace_of (gpu : bool) (file : string) (text : list string)
  : list string :=
  ("Opening " ++ file ++ "...")%string
  :: flat_map (fun l => message_of (marker_of gpu l) l) text.


(** What is printed of [msgs] under the flag [v]. *)
Definition said (v : bool) (msgs : list string) : list string :=
  if v then msgs else [].


(** The parallel sequences of a flat object have one length ([ngpus] in
    GPU mode only): what construction leaves. *)
Definition well_formed (s : FlatStats) : Prop :=
  length (files s) = length (nthreads s)
  /\ length (nprocs s) = length (nthreads s)
  /\ length (performance s) = length (nthreads s)
  /\ length (ncpus s) = length (nthreads s)
  /\ (gpuruns s = true -> length (ngpus s) = length (nthreads s)).

(** [ncpus] holds the np.int64 products of [nprocs] and [nthreads]. *)
Definition cpus_consistent (s : FlatStats) : Prop :=
  forall i p t,
    nth_error (nprocs s) i = Some p -> nth_error (nthreads s) i = Some t ->
    nth_error (ncpus s) i = Some (np_mul p t).


(** ** Concrete directories *)
Module Demo.

Local Open Scope string_scope.

Definition nl : string := String (ascii_of_nat 10) EmptyString.

(** A log with the three marker lines of one run. *)
Definition run_log (threads procs perf : string) : list string :=
  [ "Log file opened" ++ nl;
    "Using " ++ procs ++ " MPI processes" ++ nl;
    "Using " ++ threads ++ " OpenMP threads per MPI process" ++ nl;
    "2 GPUs detected: 2 compatible GPU" ++ nl;
    nl;
    "Performance: " ++ perf ++ " ns/day" ++ nl ].

(** Files by the exact name they are opened under. *)
Fixpoint lookup {V : Type} (table : list (string * V)) (name : string)
  : option V :=
  match table with
  | [] => None
  | (k, v) :: table' => if String.eqb k name then Some v else lookup table' name
  end.

(** A name that is not in the table does not exist. *)
Definition found {V : Type} (table : list (string * V)) (name : string)
  : outcome V :=
  match lookup table name with
  | Some v => Returns v
  | None => Fails NotAccessible
  end.

Definition world_of (dirs : list (string * list string))
  (texts : list (string * list string)) (argsort : list Q -> list nat)
  : World :=
  mkWorld (found dirs) (found texts) Ref.int_of_token Ref.float_of_token
          argsort Ref.first_seen.

(** Three runs, listed in a directory given with its trailing separator. *)
Definition three_runs : World :=
  world_of
    [ ("logs/", ["A.log"; "B.log"; "notes.txt"; "C.log"]) ]
    [ ("logs/A.log", run_log "2" "4" "10.5");
      ("logs/B.log", run_log "4" "4" "5.2");
      ("logs/C.log", run_log "2" "4" "20.0");
      ("logs/notes.txt", ["Performance: 1.0" ++ nl]) ]
    Ref.argsort_stable.

(** Two runs of equal performance, sorted by an argsort that meets
    numpy's contract without being stable. *)
Definition tied_runs : World :=
  world_of
    [ ("logs/", ["first.log"; "second.log"]) ]
    [ ("logs/first.log", run_log "2" "4" "7.5");
      ("logs/second.log", run_log "4" "2" "7.5") ]
    Ref.argsort_reversing.

(** A directory [logs] given without separator, next to a file whose name
    is the concatenation [logs ++ a.log]. *)
Definition sibling : World :=
  world_of
    [ ("logs", ["a.log"]) ]
    [ ("logs/a.log", run_log "2" "4" "10.5");
      ("logsa.log", run_log "8" "1" "99.0") ]
    Ref.argsort_stable.

(** The same directory without the sibling file. *)
Definition no_sibling : World :=
  world_of
    [ ("logs", ["a.log"]) ]
    [ ("logs/a.log", run_log "2" "4" "10.5") ]
    Ref.argsort_stable.

(** The current directory holding one log. *)
Definition current_dir : World :=
  world_of
    [ (".", ["run.log"; "README"]) ]
    [ ("run.log", run_log "2" "4" "10.5");
      ("README", ["about" ++ nl]) ]
    Ref.argsort_stable.

(** A log without any marker line. *)
Definition silent : World :=
  world_of
    [ ("logs/", ["empty.log"]) ]
    [ ("logs/empty.log", ["Log file opened" ++ nl; nl; "Finished." ++ nl]) ]
    Ref.argsort_stable.

(** The current directory holding that log; it is reached under its bare
    name and under [./]. *)
Definition silent_here : World :=
  world_of
    [ (".", ["empty.log"]); ("./", ["empty.log"]) ]
    [ ("empty.log", ["Log file opened" ++ nl; nl; "Finished." ++ nl]);
      ("./empty.log", ["Log file opened" ++ nl; nl; "Finished." ++ nl]) ]
    Ref.argsort_stable.

(** The three runs, where [B.log] now holds bytes that are no text. *)
Definition undecodable : World :=
  with_readlines three_runs
    (fun name => if String.eqb name "logs/B.log" then Fails NotDecodable
                 else open_readlines three_runs name).

(** A run that reports its configuration and never reaches the
    performance line. *)
Definition unfinished : World :=
  world_of
    [ ("logs/", ["a.log"; "b.log"]) ]
    [ ("logs/a.log", run_log "2" "4" "10.5");
      ("logs/b.log", ["Using 4 MPI processes" ++ nl;
                      "Using 2 OpenMP threads" ++ nl]) ]
    Ref.argsort_stable.

(** One run whose log has two GPU lines. *)
Definition extra_gpu_line : World :=
  world_of
    [ ("logs/", ["a.log"]) ]
    [ ("logs/a.log",
       List.app (run_log "2" "4" "10.5")
                ["also here: 1 compatible GPU" ++ nl]) ]
    Ref.argsort_stable.

(** The token sequences [getStats] collects from [three_runs], and the
    object after [sortStats], without and with GPU mode. *)
Definition collected_three : RawStats :=
  mkStats "logs/" false false
          ["A.log"; "B.log"; "C.log"]
          ["4"; "4"; "4"] ["2"; "4"; "2"] ["10.5"; "5.2"; "20.0"] [] [].

Definition sorted_three : FlatStats :=
  mkStats "logs/" false false
          ["B.log"; "A.log"; "C.log"]
          [4; 4; 4]%Z [4; 2; 2]%Z [26 # 5; 21 # 2; 20 # 1] [16; 8; 8]%Z [].

Definition sorted_three_gpu : FlatStats :=
  mkStats "logs/" true false
          ["B.log"; "A.log"; "C.log"]
          [4; 4; 4]%Z [4; 2; 2]%Z [26 # 5; 21 # 2; 20 # 1] [16; 8; 8]%Z
          [2; 2; 2]%Z.

(** The same two runs under a stable argsort. *)
Definition tied_runs_stable : World :=
  world_of
    [ ("logs/", ["first.log"; "second.log"]) ]
    [ ("logs/first.log", run_log "2" "4" "7.5");
      ("logs/second.log", run_log "4" "2" "7.5") ]
    Ref.argsort_stable.

(** What [getStats] collects from the two tied runs, and the object after
    [sortStats] under the two argsorts. *)
Definition collected_tied : RawStats :=
  mkStats "logs/" false false
          ["first.log"; "second.log"]
          ["4"; "2"] ["2"; "4"] ["7.5"; "7.5"] [] [].

Definition sorted_tied : FlatStats :=
  mkStats "logs/" false false
          ["second.log"; "first.log"]
          [2; 4]%Z [4; 2]%Z [15 # 2; 15 # 2] [8; 8]%Z [].

Definition sorted_tied_stable : FlatStats :=
  mkStats "logs/" false false
          ["first.log"; "second.log"]
          [4; 2]%Z [2; 4]%Z [15 # 2; 15 # 2] [8; 8]%Z [].


(** The partition of [sorted_three] along its thread counts 4 and 2. *)
Definition nested_three : NestedStats :=
  mkStats "logs/" false false
          [["B.log"]; ["A.log"; "C.log"]]
          [[4]; [4; 4]]%Z [[4]; [2; 2]]%Z [[26 # 5]; [21 # 2; 20 # 1]]
          [[16]; [8; 8]]%Z [].

(** The object constructed from [silent]: no record at all. *)
Definition sorted_silent : FlatStats :=
  mkStats "logs/" true false [] [] [] [] [] [].


(** The object [__init__] sets up for [three_runs], quiet and verbose. *)
Definition fresh_three : RawStats :=
  fresh "logs/" false false ["A.log"; "B.log"; "notes.txt"; "C.log"].

Definition fresh_three_verbose : RawStats :=
  fresh "logs/" false true ["A.log"; "B.log"; "notes.txt"; "C.log"].

(** What [getStats] prints on [three_runs] in verbose mode. *)
Definition console_three : console :=
  [ "Opening A.log..."; "Number of MPI processes: 4";
    "Number of OpenMP threads: 2";
    "Opening B.log..."; "Number of MPI processes: 4";
    "Number of OpenMP threads: 4";
    "Opening C.log..."; "Number of MPI processes: 4";
    "Number of OpenMP threads: 2" ].

(** Two runs collected from one file; two runs with one GPU entry; a
    process count that is no number. *)
Definition collected_double : RawStats :=
  mkStats "logs/" false false ["a.log"]
          ["4"; "4"] ["2"; "2"] ["1.0"; "2.0"] [] [].

Definition collected_few_gpus : RawStats :=
  mkStats "logs/" true false ["a.log"; "b.log"]
          ["4"; "4"] ["2"; "2"] ["1.0"; "2.0"] [] ["1"].

Definition collected_bad_count : RawStats :=
  mkStats "logs/" false false ["a.log"] ["four"] ["2"] ["1.0"] [] [].

(** Two runs on the same number of threads. *)
Definition sorted_uniform : FlatStats :=
  mkStats "logs/" false false ["a.log"; "b.log"]
          [4; 8]%Z [2; 2]%Z [5 # 1; 7 # 1] [8; 16]%Z [].


End Demo.

(** ** The model at work on small inputs *)

Example split_marker_line :
  PyStr.split ("Performance:      10.5   ns/day" ++ Demo.nl)%string
  = ["Performance:"; "10.5"; "ns/day"]%string.
Proof. reflexivity. Qed.

Example contains_log :
  PyStr.contains ".log" "md.log.bak" = true
  /\ PyStr.contains ".log" "notes.txt" = false.
Proof. split; reflexivity. Qed.

Example marker_without_second_token :
  scan_line (fresh "logs/" false false [], []) "UsingOpenMP"
  = Raise IndexError.
Proof. reflexivity. Qed.

Example first_marker_wins :
  scan_line (fresh "logs/" false false [], [])
            "Using 2 OpenMP threads per MPI process"
  = Ok (set_nthreads (fresh "logs/" false false []) ["2"%string], []).
Proof. reflexivity. Qed.

Example np_mul_wraps : np_mul (2 ^ 62) 4 = 0%Z /\ np_mul 4 2 = 8%Z.
Proof. split; reflexivity. Qed.


(** ** Facts about the loops *)

(** Case analysis on the head computation of a [bind] chain in [H]. *)
Ltac bind_inv H :=
  match type of H with
  | bind ?m _ = Ok _ =>
      let E := fresh "E" in
      destruct m eqn:E; cbn [bind] in H; [ | discriminate H ]
  end.

Lemma mapM_Forall2 {X Y : Type} (f : X -> result Y) (l : list X) (ys : list Y) :
  mapM f l = Ok ys -> Forall2 (fun x y => f x = Ok y) l ys.
Proof.
  revert ys; induction l as [ | x l IH ]; intros ys H; cbn in H.
  - injection H as <-. constructor.
  - bind_inv H. bind_inv H. injection H as <-.
    constructor; [ assumption | now apply IH ].
Qed.

Lemma Forall2_mapM {X Y : Type} (f : X -> result Y) (l : list X) (ys : list Y) :
  Forall2 (fun x y => f x = Ok y) l ys -> mapM f l = Ok ys.
Proof.
  induction 1 as [ | x y l ys Hxy _ IH ]; cbn.
  - reflexivity.
  - now rewrite Hxy, IH.
Qed.

Lemma mapM_length {X Y : Type} (f : X -> result Y) (l : list X) (ys : list Y) :
  mapM f l = Ok ys -> length ys = length l.
Proof.
  intros H. apply mapM_Forall2 in H. symmetry. eapply Forall2_length, H.
Qed.

Lemma Forall2_nth_error_left {X Y : Type} (R : X -> Y -> Prop) l l' i x :
  Forall2 R l l' -> nth_error l i = Some x ->
  exists y, nth_error l' i = Some y /\ R x y.
Proof.
  intros H; revert i; induction H as [ | a b l l' Hab _ IH ]; intros [ | i ] Hi;
    cbn in Hi; try discriminate.
  - injection Hi as <-. now exists b.
  - now apply IH.
Qed.

Lemma getitem_Ok {A : Type} (l : list A) i x :
  getitem l i = Ok x <-> nth_error l i = Some x.
Proof.
  unfold getitem; destruct (nth_error l i); split; intros H;
    try discriminate; now inversion H.
Qed.

Lemma fancy_index_length {A : Type} (a : list A) idx r :
  fancy_index a idx = Ok r -> length r = length idx.
Proof. apply mapM_length. Qed.

Lemma fancy_index_Forall2 {A : Type} (a : list A) idx r :
  fancy_index a idx = Ok r ->
  Forall2 (fun i x => nth_error a i = Some x) idx r.
Proof.
  intros H; apply mapM_Forall2 in H.
  eapply Forall2_impl; [ | exact H ]. intros i x; apply getitem_Ok.
Qed.

Lemma fancy_index_map {A : Type} (a : list A) idx r d :
  fancy_index a idx = Ok r -> r = map (fun i => nth i a d) idx.
Proof.
  intros H; apply fancy_index_Forall2 in H.
  induction H as [ | i x idx r Hix _ IH ]; cbn; [ reflexivity | ].
  f_equal; [ | exact IH ]. symmetry; now apply nth_error_nth.
Qed.

Lemma fancy_index_in_range {A : Type} (a : list A) idx r :
  fancy_index a idx = Ok r -> Forall (fun i => (i < length a)%nat) idx.
Proof.
  intros H; apply fancy_index_Forall2 in H.
  induction H as [ | i x idx r Hix _ IH ]; constructor; [ | exact IH ].
  apply nth_error_Some; congruence.
Qed.

Lemma cpu_products_spec procs threads cpus :
  cpu_products procs threads = Ok cpus ->
  length cpus = length procs /\
  forall i p t, nth_error procs i = Some p -> nth_error threads i = Some t ->
                nth_error cpus i = Some (np_mul p t).
Proof.
  intros H. split.
  - apply mapM_length in H. now rewrite H, length_seq.
  - intros i p t Hp Ht. apply mapM_Forall2 in H.
    assert (Hi : nth_error (seq 0 (length procs)) i = Some i).
    { rewrite nth_error_seq.
      assert (i < length procs)%nat by (apply nth_error_Some; congruence).
      destruct (Nat.ltb_spec i (length procs)); [ reflexivity | lia ]. }
    destruct (Forall2_nth_error_left _ _ _ _ _ H Hi) as (c & Hc & Hf).
    cbn in Hf. apply getitem_Ok in Hp, Ht. rewrite Hp, Ht in Hf. cbn in Hf.
    congruence.
Qed.

Lemma Forall2_nth_error_right {X Y : Type} (R : X -> Y -> Prop) l l' i y :
  Forall2 R l l' -> nth_error l' i = Some y ->
  exists x, nth_error l i = Some x /\ R x y.
Proof.
  intros H; revert i; induction H as [ | a b l l' Hab _ IH ]; intros [ | i ] Hi;
    cbn in Hi; try discriminate.
  - injection Hi as <-. now exists a.
  - now apply IH.
Qed.

Lemma convert_Ok {A : Type} (conv : string -> option A) tok v :
  convert conv tok = Ok v <-> conv tok = Some v.
Proof.
  unfold convert; destruct (conv tok); split; intros H;
    try discriminate; now inversion H.
Qed.

(** Reading a converted sequence through an index array is reading the
    tokens through it and converting. *)
Lemma lockstep_converted {A : Type} (conv : string -> option A)
  (toks : list string) (vals vals' : list A) (idx : list nat) :
  mapM (convert conv) toks = Ok vals ->
  fancy_index vals idx = Ok vals' ->
  lockstep conv idx toks vals'.
Proof.
  intros Hc Hf. apply mapM_Forall2 in Hc. apply fancy_index_Forall2 in Hf.
  eapply Forall2_impl; [ | exact Hf ]. intros i y Hy.
  destruct (Forall2_nth_error_right _ _ _ _ _ Hc Hy) as (tok & Htok & Hconv).
  exists tok. split; [ exact Htok | now apply convert_Ok ].
Qed.

Lemma lockstep_plain {A : Type} (vals vals' : list A) (idx : list nat) :
  fancy_index vals idx = Ok vals' -> lockstep Some idx vals vals'.
Proof.
  intros Hf. apply fancy_index_Forall2 in Hf.
  eapply Forall2_impl; [ | exact Hf ]. intros i y Hy. now exists y.
Qed.


(** ** The reference argsorts meet numpy's contract *)

Lemma Sorted_map_Qle (f : nat -> Q) (l : list nat) :
  Sorted (fun a b => f a <= f b) l -> Sorted Qle (map f l).
Proof.
  induction 1 as [ | a l _ IH Hd ]; cbn; constructor.
  - exact IH.
  - destruct Hd; cbn; constructor; assumption.
Qed.

Lemma insert_index_perm v i l : Permutation (Ref.insert_index v i l) (i :: l).
Proof.
  induction l as [ | j l IH ]; cbn.
  - reflexivity.
  - destruct (Qle_bool (nth j v 0) (nth i v 0)).
    + rewrite IH. apply perm_swap.
    + reflexivity.
Qed.

Lemma sort_indices_perm v l : Permutation (Ref.sort_indices v l) l.
Proof.
  induction l as [ | i l IH ]; cbn.
  - reflexivity.
  - rewrite insert_index_perm. now constructor.
Qed.

Lemma insert_index_sorted v i l :
  Sorted (fun a b => nth a v 0 <= nth b v 0) l ->
  Sorted (fun a b => nth a v 0 <= nth b v 0) (Ref.insert_index v i l).
Proof.
  induction 1 as [ | j l Hs IH Hd ]; cbn.
  - repeat constructor.
  - destruct (Qle_bool (nth j v 0) (nth i v 0)) eqn:E.
    + constructor; [ exact IH | ].
      apply Qle_bool_iff in E.
      destruct l as [ | k l ]; cbn.
      * now constructor.
      * destruct (Qle_bool (nth k v 0) (nth i v 0)); constructor;
          [ now inversion Hd | exact E ].
    + constructor; [ now constructor | ]. constructor.
      apply Qlt_le_weak, Qnot_le_lt. intros C.
      apply Qle_bool_iff in C. congruence.
Qed.

Lemma sort_indices_sorted v l :
  Sorted (fun a b => nth a v 0 <= nth b v 0) (Ref.sort_indices v l).
Proof.
  induction l as [ | i l IH ]; cbn.
  - constructor.
  - now apply insert_index_sorted.
Qed.

Lemma argsort_stable_spec v : argsort_spec v (Ref.argsort_stable v).
Proof.
  split.
  - unfold Ref.argsort_stable. rewrite sort_indices_perm.
    symmetry; apply Permutation_rev.
  - apply Sorted_map_Qle, sort_indices_sorted.
Qed.

Lemma argsort_reversing_spec v : argsort_spec v (Ref.argsort_reversing v).
Proof.
  split.
  - apply sort_indices_perm.
  - apply Sorted_map_Qle, sort_indices_sorted.
Qed.


Lemma in_insert_index v i l x :
  In x (Ref.insert_index v i l) -> x = i \/ In x l.
Proof.
  intros H. apply (Permutation_in _ (insert_index_perm v i l)) in H.
  destruct H as [ <- | H ]; [ now left | now right ].
Qed.

(** Inserting an index larger than all those present keeps equal values in
    index order. *)
Lemma insert_index_stable v i l :
  StronglySorted (fun a b => nth a v 0 <= nth b v 0) l ->
  argsort_stable_on v l ->
  Forall (fun j => (j < i)%nat) l ->
  argsort_stable_on v (Ref.insert_index v i l).
Proof.
  unfold argsort_stable_on.
  induction l as [ | j l IH ]; intros Hle Hst Hlt; cbn.
  - repeat constructor.
  - apply StronglySorted_inv in Hle, Hst. destruct Hle as [Hle Hjle].
    destruct Hst as [Hst Hjst]. inversion Hlt as [ | ? ? Hji Hlt' ]; subst.
    rewrite Forall_forall in Hjle, Hjst.
    destruct (Qle_bool (nth j v 0) (nth i v 0)) eqn:E.
    + constructor; [ now apply IH | ].
      apply Forall_forall. intros x Hx. apply in_insert_index in Hx.
      destruct Hx as [ -> | Hx ]; [ now intros _ | now apply Hjst ].
    + constructor; [ constructor; [ exact Hst | now apply Forall_forall ] | ].
      assert (Hij : nth i v 0 < nth j v 0).
      { apply Qnot_le_lt. intros C. apply Qle_bool_iff in C. congruence. }
      apply Forall_forall. intros x Hx Heq. exfalso.
      assert (Hjx : nth j v 0 <= nth x v 0).
      { destruct Hx as [ <- | Hx ]; [ apply Qle_refl | now apply Hjle ]. }
      rewrite Heq in Hij. apply (Qlt_not_le _ _ Hij Hjx).
Qed.

Lemma sort_indices_stable v l :
  StronglySorted gt l -> argsort_stable_on v (Ref.sort_indices v l).
Proof.
  induction 1 as [ | i l Hgt IH Hi ]; cbn; [ constructor | ].
  apply insert_index_stable.
  - apply Sorted_StronglySorted; [ | apply sort_indices_sorted ].
    intros a b c. apply Qle_trans.
  - exact IH.
  - rewrite Forall_forall in *. intros x Hx.
    apply (Permutation_in _ (sort_indices_perm v l)) in Hx.
    specialize (Hi _ Hx). lia.
Qed.

Lemma StronglySorted_gt_rev_seq n : StronglySorted gt (rev (seq 0 n)).
Proof.
  induction n as [ | n IH ]; [ constructor | ].
  rewrite seq_S, rev_app_distr. cbn. constructor; [ exact IH | ].
  apply Forall_forall. intros x Hx. apply in_rev, in_seq in Hx. lia.
Qed.

(** The stable reference argsort is stable on every array. *)
Lemma argsort_stable_stable v : argsort_stable_on v (Ref.argsort_stable v).
Proof. apply sort_indices_stable, StronglySorted_gt_rev_seq. Qed.


(** ** Order-preserving selections *)

Lemma StronglySorted_filter {A : Type} (R S : A -> A -> Prop) (f : A -> bool) l :
  (forall a b, f a = true -> f b = true -> R a b -> S a b) ->
  StronglySorted R l -> StronglySorted S (filter f l).
Proof.
  intros HRS. induction 1 as [ | a l _ IH Ha ]; cbn; [ constructor | ].
  destruct (f a) eqn:Fa; [ constructor | ]; try exact IH.
  rewrite Forall_forall in *. intros x Hx. apply filter_In in Hx.
  destruct Hx as [Hx Fx]. apply HRS; auto.
Qed.

Lemma StronglySorted_lt_seq start len : StronglySorted lt (seq start len).
Proof.
  revert start; induction len as [ | len IH ]; intros start; cbn; constructor.
  - apply IH.
  - apply Forall_forall. intros x Hx. apply in_seq in Hx. lia.
Qed.

(** Two increasing lists with the same elements are the same list. *)
Lemma increasing_same_elements (l m : list nat) :
  StronglySorted lt l -> StronglySorted lt m ->
  (forall x, In x l <-> In x m) -> l = m.
Proof.
  intros Hl; revert m; induction Hl as [ | a l Hl IH Ha ]; intros m Hm Hlm.
  - destruct m as [ | b m ]; [ reflexivity | ].
    exfalso. apply (Hlm b). now left.
  - destruct Hm as [ | b m Hm Hb ].
    + exfalso. apply (Hlm a). now left.
    + rewrite Forall_forall in Ha, Hb.
      assert (a = b) as <-.
      { assert (In a (b :: m)) as [ E | Ia ] by (apply Hlm; now left);
          [ congruence | ].
        assert (In b (a :: l)) as [ E | Ib ] by (apply Hlm; now left);
          [ congruence | ].
        specialize (Ha _ Ib). specialize (Hb _ Ia). lia. }
      f_equal. apply IH; [ exact Hm | ]. intros x; split; intros Hx.
      * assert (In x (a :: m)) as [ E | ] by (apply Hlm; now right);
          [ | assumption ].
        specialize (Ha _ Hx). lia.
      * assert (In x (a :: l)) as [ E | ] by (apply Hlm; now right);
          [ | assumption ].
        specialize (Hb _ Hx). lia.
Qed.

(** A stable argsort lists the positions of any one value in increasing
    order: exactly as the positions themselves do. *)
Lemma stable_positions (v : list Q) (idx : list nat) (q : Q) :
  Permutation idx (seq 0 (length v)) ->
  argsort_stable_on v idx ->
  filter (fun i => Qeq_bool (nth i v 0) q) idx
  = filter (fun i => Qeq_bool (nth i v 0) q) (seq 0 (length v)).
Proof.
  intros Hperm Hst. apply increasing_same_elements.
  - eapply StronglySorted_filter; [ | exact Hst ].
    cbn. intros a b Ha Hb Hab. apply Hab.
    apply Qeq_bool_iff in Ha, Hb. now rewrite Ha, Hb.
  - eapply StronglySorted_filter; [ | apply StronglySorted_lt_seq ]. auto.
  - intros x. rewrite !filter_In. split; intros [Hx Hq]; (split; [ | exact Hq ]).
    + eapply Permutation_in; eassumption.
    + eapply Permutation_in; [ symmetry | ]; eassumption.
Qed.

Lemma combine_map_same {X A B : Type} (f : X -> A) (g : X -> B) (l : list X) :
  combine (map f l) (map g l) = map (fun x => (f x, g x)) l.
Proof. induction l; cbn; congruence. Qed.

Lemma nth_combine_lt {A B : Type} (a : list A) (b : list B) i da db :
  (i < length a)%nat -> (i < length b)%nat ->
  nth i (combine a b) (da, db) = (nth i a da, nth i b db).
Proof.
  revert b i; induction a as [ | x a IH ]; intros [ | y b ] [ | i ] Ha Hb;
    cbn in *; try lia; try reflexivity.
  apply IH; lia.
Qed.

Lemma combine_by_position {A B : Type} (a : list A) (b : list B) da db :
  (length b <= length a)%nat ->
  combine a b = map (fun i => (nth i a da, nth i b db)) (seq 0 (length b)).
Proof.
  intros Hlen. apply (nth_ext _ _ (da, db) (da, db)).
  - rewrite length_combine, length_map, length_seq. lia.
  - intros i Hi. rewrite length_combine in Hi.
    rewrite nth_combine_lt by lia.
    set (g := fun i => (nth i a da, nth i b db)).
    rewrite (nth_indep _ (da, db) (g O))
      by (rewrite length_map, length_seq; lia).
    rewrite (map_nth g). rewrite seq_nth by lia. reflexivity.
Qed.

(** Every position of the array is below the length of whatever else was
    read through a permutation of them. *)
Lemma permutation_in_range (idx : list nat) (n m : nat) :
  Permutation idx (seq 0 n) -> Forall (fun i => (i < m)%nat) idx -> (n <= m)%nat.
Proof.
  intros Hperm Hall. destruct n as [ | n ]; [ lia | ].
  rewrite Forall_forall in Hall. apply (Hall n).
  eapply Permutation_in; [ symmetry; exact Hperm | ]. apply in_seq. lia.
Qed.

(** Under a stable argsort, the records of any one performance value come
    out in the order they went in. *)
Lemma stable_selection {A : Type} (a a' : list A) (v v' : list Q)
  (idx : list nat) (q : Q) (d : A) :
  fancy_index a idx = Ok a' -> fancy_index v idx = Ok v' ->
  Permutation idx (seq 0 (length v)) -> argsort_stable_on v idx ->
  with_performance q (combine a' v') = with_performance q (combine a v).
Proof.
  intros Ha Hv Hperm Hst.
  pose proof (permutation_in_range _ _ _ Hperm (fancy_index_in_range _ _ _ Ha))
    as Hlen.
  rewrite (fancy_index_map _ _ _ d Ha), (fancy_index_map _ _ _ 0 Hv).
  rewrite combine_map_same, (combine_by_position a v d 0 Hlen).
  unfold with_performance. rewrite !filter_map_swap. cbn.
  f_equal. now apply stable_positions.
Qed.

Lemma nth_error_combine_Some {A B : Type} (a : list A) (b : list B) i x y :
  nth_error a i = Some x -> nth_error b i = Some y ->
  nth_error (combine a b) i = Some (x, y).
Proof.
  revert b i; induction a as [ | x0 a IH ]; intros [ | y0 b ] [ | i ] Ha Hb;
    cbn in *; try discriminate.
  - congruence.
  - now apply IH.
Qed.

Lemma fancy_index_combine {A B : Type} (a a' : list A) (b b' : list B) idx :
  fancy_index a idx = Ok a' -> fancy_index b idx = Ok b' ->
  fancy_index (combine a b) idx = Ok (combine a' b').
Proof.
  intros Ha Hb. apply fancy_index_Forall2 in Ha, Hb.
  apply Forall2_mapM. revert b' Hb.
  induction Ha as [ | i x idx a' Hx _ IH ]; intros b' Hb; inversion Hb; subst; cbn.
  - constructor.
  - constructor; [ | now apply IH ].
    apply getitem_Ok. now apply nth_error_combine_Some.
Qed.


(** ** Which exceptions the phases raise *)

Lemma foldM_Raise {S X : Type} (body : S -> X -> result S) l s e :
  foldM body l s = Raise e -> exists s0 x, In x l /\ body s0 x = Raise e.
Proof.
  revert s; induction l as [ | x l IH ]; intros s H; cbn in H; [ discriminate | ].
  destruct (body s x) as [ s1 | e1 ] eqn:E; cbn in H.
  - destruct (IH _ H) as (s0 & y & Hy & Hb). exists s0, y. split; [ now right | exact Hb ].
  - injection H as <-. exists s, x. split; [ now left | exact E ].
Qed.

Lemma foldM_Raise_inv {S X : Type} (body : S -> X -> result S) (P : S -> Prop) :
  (forall s x s', P s -> body s x = Ok s' -> P s') ->
  forall l s e, P s -> foldM body l s = Raise e ->
    exists s0 x, P s0 /\ In x l /\ body s0 x = Raise e.
Proof.
  intros Hbody. induction l as [ | x l IH ]; intros s e Hs H; cbn in H;
    [ discriminate | ].
  destruct (body s x) as [ s1 | e1 ] eqn:E; cbn in H.
  - destruct (IH s1 e (Hbody _ _ _ Hs E) H) as (s0 & y & H0 & Hy & Hb).
    exists s0, y. repeat split; [ exact H0 | now right | exact Hb ].
  - injection H as <-. exists s, x. repeat split; [ exact Hs | now left | exact E ].
Qed.

Lemma mapM_Raise {X Y : Type} (f : X -> result Y) l e :
  mapM f l = Raise e -> exists x, In x l /\ f x = Raise e.
Proof.
  induction l as [ | x l IH ]; intros H; cbn in H; [ discriminate | ].
  destruct (f x) as [ y | e1 ] eqn:E; cbn in H.
  - destruct (mapM f l) as [ ys | e2 ]; cbn in H; [ discriminate | ].
    injection H as <-. destruct (IH eq_refl) as (x0 & Hx & Hf).
    exists x0. split; [ now right | exact Hf ].
  - injection H as <-. exists x. split; [ now left | exact E ].
Qed.

Lemma getitem_Raise {A : Type} (l : list A) i e :
  getitem l i = Raise e -> e = IndexError.
Proof. unfold getitem; destruct (nth_error l i); congruence. Qed.

Lemma getitem_neg_Raise {A : Type} (l : list A) k e :
  getitem_neg l k = Raise e -> e = IndexError.
Proof.
  unfold getitem_neg. destruct (k <=? length l)%nat; [ apply getitem_Raise | congruence ].
Qed.

Lemma fancy_index_Raise {A : Type} (a : list A) idx e :
  fancy_index a idx = Raise e -> e = IndexError.
Proof.
  intros H. apply mapM_Raise in H. destruct H as (i & _ & H).
  now apply getitem_Raise in H.
Qed.

Lemma convert_Raise {A : Type} (conv : string -> option A) tok e :
  convert conv tok = Raise e -> e = ValueError tok.
Proof. unfold convert; destruct (conv tok); congruence. Qed.

Lemma conversions_Raise {A : Type} (conv : string -> option A) toks e :
  mapM (convert conv) toks = Raise e -> exists tok, e = ValueError tok.
Proof.
  intros H. apply mapM_Raise in H. destruct H as (tok & _ & H).
  exists tok. now apply convert_Raise in H.
Qed.

Lemma cpu_products_Raise procs threads e :
  cpu_products procs threads = Raise e -> e = IndexError.
Proof.
  intros H. apply mapM_Raise in H. destruct H as (i & _ & H).
  destruct (getitem procs i) eqn:Ep; cbn in H.
  - destruct (getitem threads i) eqn:Et; cbn in H; [ discriminate | ].
    injection H as <-. now apply getitem_Raise in Et.
  - injection H as <-. now apply getitem_Raise in Ep.
Qed.

(** A line raises nothing but IndexError (a marker line with too few
    tokens). *)
Lemma scan_line_Raise acc line e :
  scan_line acc line = Raise e -> e = IndexError.
Proof.
  destruct acc as [s out]. unfold scan_line.
  repeat match goal with
         | |- context [ if ?c then _ else _ ] => destruct c
         end;
    try discriminate;
    intros H;
    match type of H with
    | bind ?m _ = _ => destruct m eqn:E; cbn in H; [ discriminate | ]
    end;
    injection H as <-;
    first [ now apply getitem_Raise in E | now apply getitem_neg_Raise in E ].
Qed.


(** ** The names under which files are opened *)

Lemma foldM_invariant {S X : Type} (body : S -> X -> result S) (P : S -> Prop) :
  (forall s x s', P s -> body s x = Ok s' -> P s') ->
  forall l s s', P s -> foldM body l s = Ok s' -> P s'.
Proof.
  intros Hbody. induction l as [ | x l IH ]; intros s s' Hs H; cbn in H.
  - now injection H as <-.
  - bind_inv H. eapply IH; [ | exact H ]. eapply Hbody; eassumption.
Qed.

Lemma scan_line_path acc line acc' :
  scan_line acc line = Ok acc' -> path (fst acc') = path (fst acc).
Proof.
  destruct acc as [s out]. unfold scan_line.
  repeat match goal with
         | |- context [ if ?c then _ else _ ] => destruct c
         end;
    intros H; try bind_inv H; now injection H as <-.
Qed.

Lemma contains_cons sub c s :
  PyStr.contains sub s = true -> PyStr.contains sub (String c s) = true.
Proof. intros H. cbn. rewrite H. apply orb_true_r. Qed.

(** A finite list of names is not closed under putting a dot in front. *)
Lemma no_dot_closed_list (names : list string) :
  (forall f, In f names -> In (String "."%char f) names) -> names = [].
Proof.
  intros Hclosed. destruct names as [ | f0 rest ]; [ reflexivity | exfalso ].
  set (names := f0 :: rest) in *.
  assert (Hbound : forall f, In f names ->
                             (String.length f <= list_max (map String.length names))%nat).
  { intros f Hf. pose proof (list_max_le (map String.length names)
                               (list_max (map String.length names))) as [H _].
    specialize (H (Nat.le_refl _)). rewrite Forall_forall in H.
    apply H. now apply in_map. }
  assert (Hgrow : forall k, exists f, In f names /\ (k <= String.length f)%nat).
  { induction k as [ | k (f & Hf & Hk) ].
    - exists f0. split; [ now left | lia ].
    - exists (String "."%char f). split; [ now apply Hclosed | cbn; lia ]. }
  destruct (Hgrow (S (list_max (map String.length names)))) as (f & Hf & Hk).
  specialize (Hbound f Hf). lia.
Qed.

Lemma first_unopenable (r : string -> option (list string)) (l : list string) :
  (exists f, In f l /\ r f = None) \/ (forall f, In f l -> r f <> None).
Proof.
  induction l as [ | f l [ (f' & Hf & Hr) | Hall ] ].
  - right. intros f [].
  - left. exists f'. split; [ now right | exact Hr ].
  - destruct (r f) eqn:E.
    + right. intros f' [ <- | Hf ]; [ congruence | now apply Hall ].
    + left. exists f. split; [ now left | exact E ].
Qed.


(** ** The calls into the file system *)

(** [scan_file] and [init] by what the call returned. *)
Lemma scan_file_unfold (w : World) (s : RawStats) (out : console)
  (file : string) :
  scan_file w (s, out) file =
  match readlines w (path s ++ file)%string with
  | None => Raise (readlines_exn w (path s ++ file)%string)
  | Some lines =>
      foldM scan_line lines
            (s, trace s out ("Opening " ++ file ++ "...")%string)
  end.
Proof.
  unfold scan_file, readlines, readlines_exn.
  now destruct (open_readlines w (path s ++ file)%string).
Qed.

Lemma init_unfold (w : World) (dir : string) (g v : bool) :
  init w dir g v =
  match listdir w dir with
  | None => Raise (listdir_exn w dir)
  | Some names =>
      '(s1, out) <- getStats w (fresh dir g v names) ;;
      s2 <- sortStats w s1 ;;
      Ok (s2, out)
  end.
Proof.
  unfold init, listdir, listdir_exn. now destruct (os_listdir w dir).
Qed.

Lemma readlines_exn_no_assertion (w : World) (name : string) :
  is_assertion (readlines_exn w name) = false.
Proof.
  unfold readlines_exn.
  now destruct (open_readlines w name) as [ lines | [ | | ] ].
Qed.

Lemma listdir_exn_no_assertion (w : World) (name : string) :
  is_assertion (listdir_exn w name) = false.
Proof.
  unfold listdir_exn.
  now destruct (os_listdir w name) as [ lines | [ | | ] ].
Qed.

Lemma with_readlines_listdir (w : World) r (name : string) :
  listdir (with_readlines w r) name = listdir w name.
Proof. reflexivity. Qed.


Section ConstructionFacts.

Variable w : World.

(** What a successful [sortStats] did: the conversions, the one index array
    and the selections through it. *)
Lemma sortStats_inv (s : RawStats) (s' : FlatStats) :
  sortStats w s = Ok s' ->
  exists procs threads perfs,
    mapM (convert (py_int w)) (nprocs s) = Ok procs /\
    mapM (convert (py_int w)) (nthreads s) = Ok threads /\
    mapM (convert (py_float w)) (performance s) = Ok perfs /\
    fancy_index (files s) (np_argsort w perfs) = Ok (files s') /\
    fancy_index procs (np_argsort w perfs) = Ok (nprocs s') /\
    fancy_index threads (np_argsort w perfs) = Ok (nthreads s') /\
    fancy_index perfs (np_argsort w perfs) = Ok (performance s') /\
    cpu_products (nprocs s') (nthreads s') = Ok (ncpus s') /\
    gpuruns s' = gpuruns s /\
    if gpuruns s
    then exists gpus, mapM (convert (py_int w)) (ngpus s) = Ok gpus /\
                      fancy_index gpus (np_argsort w perfs) = Ok (ngpus s')
    else ngpus s' = [].
Proof.
  unfold sortStats. intros H.
  bind_inv H. bind_inv H. bind_inv H. bind_inv H. bind_inv H. bind_inv H.
  bind_inv H. bind_inv H.
  exists a, a0, a1.
  destruct (gpuruns s) eqn:G.
  - bind_inv H. bind_inv H. injection H as <-. cbn.
    repeat split; try assumption. now exists a7.
  - injection H as <-. cbn. repeat split; assumption.
Qed.

(** The lengths after a successful [sortStats]: all that of the index
    array. *)
Lemma sortStats_lengths (s : RawStats) (s' : FlatStats) :
  sortStats w s = Ok s' ->
  exists n,
    length (files s') = n /\ length (nprocs s') = n /\
    length (nthreads s') = n /\ length (performance s') = n /\
    length (ncpus s') = n /\ (gpuruns s' = true -> length (ngpus s') = n).
Proof.
  intros H. destruct (sortStats_inv _ _ H)
    as (procs & threads & perfs & _ & _ & _ & Hf & Hp & Ht & Hq & Hc & Hg & Hgpu).
  exists (length (np_argsort w perfs)).
  apply fancy_index_length in Hf, Hp, Ht, Hq.
  apply cpu_products_spec in Hc. destruct Hc as [Hc _].
  repeat split; try congruence.
  intros G. rewrite Hg in G. rewrite G in Hgpu.
  destruct Hgpu as (gpus & _ & Hgpu). now apply fancy_index_length in Hgpu.
Qed.

Lemma init_inv path g v s out :
  init w path g v = Ok (s, out) ->
  exists names raw,
    listdir w path = Some names /\
    getStats w (fresh path g v names) = Ok (raw, out) /\
    sortStats w raw = Ok s.
Proof.
  rewrite init_unfold. intros H.
  destruct (listdir w path) as [ names | ]; [ | discriminate ].
  bind_inv H. destruct a as [raw out']. bind_inv H. injection H as <- <-.
  now exists names, raw.
Qed.

(** C2: whenever construction succeeds, [files], [nprocs], [nthreads],
    [performance] and [ncpus] have one common length, and with [gpuruns]
    so has [ngpus]. *)
Theorem init_lengths_agree path g v s out :
  init w path g v = Ok (s, out) ->
  length (files s) = length (nprocs s)
  /\ length (nprocs s) = length (nthreads s)
  /\ length (nthreads s) = length (performance s)
  /\ length (performance s) = length (ncpus s)
  /\ (gpuruns s = true -> length (ngpus s) = length (files s)).
Proof.
  intros H. destruct (init_inv _ _ _ _ _ H) as (names & raw & _ & _ & Hs).
  destruct (sortStats_lengths _ _ Hs) as (n & Hf & Hp & Ht & Hq & Hc & Hg).
  repeat split; try congruence. intros G. rewrite (Hg G). congruence.
Qed.

Lemma np_mul_exact (a b : Z) :
  (- 2 ^ 63 <= a * b < 2 ^ 63)%Z -> np_mul a b = (a * b)%Z.
Proof.
  intros H. unfold np_mul, wrap64.
  rewrite Z.mod_small by lia. lia.
Qed.

(** C6: after [sortStats], [ncpus] has one entry per record and entry [i]
    is the np.int64 product of [nprocs[i]] and [nthreads[i]], which is the
    exact product whenever that fits in 64 bits. *)
Theorem sortStats_ncpus_products (s : RawStats) (s' : FlatStats) :
  sortStats w s = Ok s' ->
  length (ncpus s') = length (nprocs s')
  /\ forall i, (i < length (ncpus s'))%nat ->
       exists p t,
         nth_error (nprocs s') i = Some p
         /\ nth_error (nthreads s') i = Some t
         /\ nth_error (ncpus s') i = Some (np_mul p t)
         /\ ((- 2 ^ 63 <= p * t < 2 ^ 63)%Z ->
             nth_error (ncpus s') i = Some (p * t)%Z).
Proof.
  intros H. destruct (sortStats_lengths _ _ H) as (n & _ & Hp & Ht & _ & Hc & _).
  destruct (sortStats_inv _ _ H)
    as (_ & _ & _ & _ & _ & _ & _ & _ & _ & _ & Hcpu & _).
  apply cpu_products_spec in Hcpu. destruct Hcpu as [Hlen Hcpu].
  split; [ exact Hlen | ]. intros i Hi.
  destruct (nth_error (nprocs s') i) as [ p | ] eqn:Ep.
  2:{ apply nth_error_None in Ep. lia. }
  destruct (nth_error (nthreads s') i) as [ t | ] eqn:Et.
  2:{ apply nth_error_None in Et. lia. }
  exists p, t. pose proof (Hcpu i p t Ep Et) as Hi'.
  repeat split; try assumption.
  intros Hr. now rewrite <- (np_mul_exact _ _ Hr).
Qed.


(** C7: after [sortStats] the performance sequence is ascending, and
    [files], [nprocs], [nthreads], [performance] and (GPU mode) [ngpus]
    are all read through the one index array that argsort returned, a
    permutation of the record positions. *)
Theorem sortStats_ascending_lockstep (s : RawStats) (s' : FlatStats)
  (perfs : list Q) :
  sortStats w s = Ok s' ->
  mapM (convert (py_float w)) (performance s) = Ok perfs ->
  argsort_spec perfs (np_argsort w perfs) ->
  Sorted Qle (performance s')
  /\ Permutation (np_argsort w perfs) (seq 0 (length (performance s)))
  /\ lockstep Some (np_argsort w perfs) (files s) (files s')
  /\ lockstep (py_int w) (np_argsort w perfs) (nprocs s) (nprocs s')
  /\ lockstep (py_int w) (np_argsort w perfs) (nthreads s) (nthreads s')
  /\ lockstep (py_float w) (np_argsort w perfs) (performance s) (performance s')
  /\ (gpuruns s = true ->
      lockstep (py_int w) (np_argsort w perfs) (ngpus s) (ngpus s')).
Proof.
  intros H Hperfs [Hperm Hsorted].
  destruct (sortStats_inv _ _ H)
    as (procs & threads & perfs0 & Hcp & Hct & Hcq & Hf & Hp & Ht & Hq & _ & _ & Hg).
  rewrite Hperfs in Hcq. injection Hcq as <-.
  split; [ | split; [ | repeat split ] ].
  - rewrite (fancy_index_map _ _ _ 0 Hq). exact Hsorted.
  - now rewrite <- (mapM_length _ _ _ Hperfs).
  - now apply lockstep_plain.
  - eapply lockstep_converted; eassumption.
  - eapply lockstep_converted; eassumption.
  - eapply lockstep_converted; eassumption.
  - intros G. rewrite G in Hg. destruct Hg as (gpus & Hcg & Hfg).
    eapply lockstep_converted; eassumption.
Qed.


(** C1 (as amended): when the index array argsort returns is stable,
    the records of any one performance value are in the same relative
    order after [sortStats] as they were collected, in every sequence. *)
Theorem sortStats_keeps_ties_when_stable (s : RawStats) (s' : FlatStats)
  (procs threads : list Z) (perfs : list Q) :
  sortStats w s = Ok s' ->
  mapM (convert (py_int w)) (nprocs s) = Ok procs ->
  mapM (convert (py_int w)) (nthreads s) = Ok threads ->
  mapM (convert (py_float w)) (performance s) = Ok perfs ->
  argsort_spec perfs (np_argsort w perfs) ->
  argsort_stable_on perfs (np_argsort w perfs) ->
  (forall q,
      with_performance q
        (rows (files s') (nprocs s') (nthreads s') (performance s'))
      = with_performance q (rows (files s) procs threads perfs))
  /\ (gpuruns s = true ->
      forall gpus q,
        mapM (convert (py_int w)) (ngpus s) = Ok gpus ->
        with_performance q (combine (ngpus s') (performance s'))
        = with_performance q (combine gpus perfs)).
Proof.
  intros H Hcp Hct Hcq [Hperm _] Hst.
  destruct (sortStats_inv _ _ H)
    as (procs0 & threads0 & perfs0 & Hcp0 & Hct0 & Hcq0
        & Hf & Hp & Ht & Hq & _ & _ & Hg).
  rewrite Hcp in Hcp0. rewrite Hct in Hct0. rewrite Hcq in Hcq0.
  injection Hcp0 as <-. injection Hct0 as <-. injection Hcq0 as <-.
  split.
  - intros q. unfold rows.
    apply (stable_selection _ _ _ _ (np_argsort w perfs) q
             (EmptyString, 0%Z, 0%Z)); try assumption.
    repeat apply fancy_index_combine; assumption.
  - intros G gpus q Hcg. rewrite G in Hg.
    destruct Hg as (gpus0 & Hcg0 & Hfg).
    rewrite Hcg in Hcg0. injection Hcg0 as <-.
    now apply (stable_selection _ _ _ _ (np_argsort w perfs) q 0%Z).
Qed.


Lemma scan_file_Raise acc file e :
  scan_file w acc file = Raise e -> is_assertion e = false.
Proof.
  destruct acc as [s out]. rewrite scan_file_unfold.
  destruct (readlines w (path s ++ file)) as [ lines | ].
  - intros H. apply foldM_Raise in H. destruct H as (s0 & line & _ & H).
    apply scan_line_Raise in H. now subst.
  - intros H. injection H as <-. apply readlines_exn_no_assertion.
Qed.

Lemma collect_Raise s e : collect w s = Raise e -> is_assertion e = false.
Proof.
  intros H. apply foldM_Raise in H. destruct H as (s0 & file & _ & H).
  now apply scan_file_Raise in H.
Qed.

Lemma sortStats_Raise s e : sortStats w s = Raise e -> is_assertion e = false.
Proof.
  unfold sortStats. intros H.
  repeat match type of H with
         | bind ?m _ = Raise _ =>
             let E := fresh "E" in
             destruct m eqn:E; cbn [bind] in H;
             [ | injection H as <-;
                 first [ apply conversions_Raise in E; destruct E as (tok & ->)
                       | apply fancy_index_Raise in E; subst
                       | apply cpu_products_Raise in E; subst ];
                 reflexivity ]
         | (if ?c then _ else _) = Raise _ => destruct c
         end.
  all: discriminate.
Qed.

Lemma counts_agree_iff (s : RawStats) :
  counts_agree s = true
  <-> length (nprocs s) = length (nthreads s)
      /\ length (nthreads s) = length (performance s).
Proof.
  unfold counts_agree. now rewrite andb_true_iff, !Nat.eqb_eq.
Qed.

(** C3: construction ends in the consistency error exactly when the
    collection loop has run to its end and left different numbers of
    [nprocs], [nthreads] and [performance] entries; the error carries the
    descriptive message; and [getStats] passes whenever these three counts
    agree, whatever the number of [ngpus] entries. *)
Theorem init_consistency_error path g v :
  (forall msg,
      init w path g v = Raise (AssertionError msg)
      <-> msg = consistency_msg
          /\ exists names raw out,
               listdir w path = Some names
               /\ collect w (fresh path g v names) = Ok (raw, out)
               /\ ~ (length (nprocs raw) = length (nthreads raw)
                     /\ length (nthreads raw) = length (performance raw)))
  /\ (forall s raw out,
         collect w s = Ok (raw, out) ->
         length (nprocs raw) = length (nthreads raw) ->
         length (nthreads raw) = length (performance raw) ->
         getStats w s = Ok (raw, out))
  /\ (forall raw gpus, counts_agree (set_ngpus raw gpus) = counts_agree raw).
Proof.
  split; [ | split ].
  - intros msg. rewrite init_unfold. unfold getStats.
    destruct (listdir w path) as [ names | ].
    2:{ split.
        - intros H. injection H as H.
          pose proof (listdir_exn_no_assertion w path) as Hn.
          rewrite H in Hn. discriminate.
        - intros (_ & names & raw & out & C & _). discriminate. }
    destruct (collect w (fresh path g v names)) as [ [raw out] | e ] eqn:Ec;
      cbn [bind].
    + destruct (counts_agree raw) eqn:Ea; cbn [bind].
      * split.
        -- intros H. destruct (sortStats w raw) eqn:Es; cbn [bind] in H;
             [ discriminate | ].
           injection H as ->. now apply sortStats_Raise in Es.
        -- intros (_ & names' & raw' & out' & Hn & Hc & Hd).
           injection Hn as Hn; subst names'. rewrite Ec in Hc.
           injection Hc as Hr Ho; subst raw' out'.
           exfalso. now apply Hd, counts_agree_iff.
      * split.
        -- intros H. injection H as <-. split; [ reflexivity | ].
           exists names, raw, out. repeat split; try assumption.
           intros C. apply counts_agree_iff in C. congruence.
        -- now intros (-> & _).
    + split.
      * intros H. injection H as ->. now apply collect_Raise in Ec.
      * intros (_ & names' & raw' & out' & Hn & Hc & _).
        injection Hn as Hn; subst names'. congruence.
  - intros s raw out Hc H1 H2. unfold getStats. rewrite Hc. cbn.
    now rewrite (proj2 (counts_agree_iff raw) (conj H1 H2)).
  - reflexivity.
Qed.


(** A line that is no marker leaves the object and the console alone. *)
Lemma scan_line_unrecognized (s : RawStats) out line :
  recognized (gpuruns s) line = false -> scan_line (s, out) line = Ok (s, out).
Proof.
  unfold recognized, scan_line. intros H.
  repeat (apply orb_false_iff in H; destruct H as [H ?]).
  repeat match goal with
         | E : ?c = false |- context [ if ?c then _ else _ ] => rewrite E
         end.
  reflexivity.
Qed.

Lemma scan_lines_unrecognized (s : RawStats) out lines :
  Forall (fun line => recognized (gpuruns s) line = false) lines ->
  foldM scan_line lines (s, out) = Ok (s, out).
Proof.
  induction 1 as [ | line lines Hl _ IH ]; cbn [foldM]; [ reflexivity | ].
  now rewrite scan_line_unrecognized.
Qed.

Lemma scan_files_unrecognized (s : RawStats) (fl : list string) :
  (forall file, In file fl ->
     exists lines, readlines w (path s ++ file) = Some lines
       /\ Forall (fun line => recognized (gpuruns s) line = false) lines) ->
  forall out, exists out', foldM (scan_file w) fl (s, out) = Ok (s, out').
Proof.
  induction fl as [ | file fl IH ]; intros Hall out; cbn [foldM].
  - now exists out.
  - destruct (Hall file (or_introl eq_refl)) as (lines & Hr & Hn).
    rewrite scan_file_unfold, Hr.
    rewrite scan_lines_unrecognized by exact Hn. cbn [bind].
    apply IH. intros f Hf. apply Hall. now right.
Qed.

Lemma collect_unrecognized (s : RawStats) :
  (forall file, In file (files s) ->
     exists lines, readlines w (path s ++ file) = Some lines
       /\ Forall (fun line => recognized (gpuruns s) line = false) lines) ->
  exists out, collect w s = Ok (s, out).
Proof. intros H. exact (scan_files_unrecognized s (files s) H []). Qed.

(** X19: when every name of the listing that contains [.log] opens
    under [path + name] and holds no marker line, construction succeeds
    and leaves every sequence empty. *)
Theorem init_no_marker_lines path g v names :
  listdir w path = Some names ->
  (forall file, In file (filter (PyStr.contains ".log") names) ->
     exists lines, readlines w (path ++ file) = Some lines
       /\ Forall (fun line => recognized g line = false) lines) ->
  argsort_spec [] (np_argsort w []) ->
  exists out,
    init w path g v = Ok (mkStats path g v [] [] [] [] [] [], out).
Proof.
  intros Hl Hfiles [Hperm _]. symmetry in Hperm. apply Permutation_nil in Hperm.
  destruct (collect_unrecognized (fresh path g v names) Hfiles) as (out & Hc).
  exists out. rewrite init_unfold, Hl. unfold getStats.
  rewrite Hc. cbn.
  unfold sortStats. cbn. rewrite Hperm. cbn. now destruct g.
Qed.


Lemma scan_file_path acc file acc' :
  scan_file w acc file = Ok acc' -> path (fst acc') = path (fst acc).
Proof.
  destruct acc as [s out]. rewrite scan_file_unfold.
  destruct (readlines w (path s ++ file)) as [ lines | ]; [ | discriminate ].
  apply (foldM_invariant scan_line (fun a => path (fst a) = path s)).
  - intros a x a' Ha Hx. apply scan_line_path in Hx.
    transitivity (path (fst a)); assumption.
  - reflexivity.
Qed.

(** The loop over the files looks at the file system only under the names
    [path ++ file]. *)
Lemma scan_files_agree (r : string -> outcome (list string)) (p : string) fl :
  (forall file, In file fl ->
     r (p ++ file)%string = open_readlines w (p ++ file)%string) ->
  forall acc, path (fst acc) = p ->
    foldM (scan_file (with_readlines w r)) fl acc = foldM (scan_file w) fl acc.
Proof.
  induction fl as [ | file fl IH ]; intros Hr acc Hp; cbn [foldM]; [ reflexivity | ].
  assert (E : scan_file (with_readlines w r) acc file = scan_file w acc file).
  { destruct acc as [s out]. unfold scan_file.
    cbn [open_readlines with_readlines].
    cbn in Hp. rewrite Hp, (Hr file (or_introl eq_refl)). reflexivity. }
  rewrite E. destruct (scan_file w acc file) as [ acc' | e ] eqn:Ef; cbn [bind];
    [ | reflexivity ].
  apply IH.
  - intros f Hf. apply Hr. now right.
  - apply scan_file_path in Ef. transitivity (path (fst acc)); assumption.
Qed.

(** A name of the list under which nothing can be opened makes the loop
    raise. *)
Lemma scan_files_missing (p : string) fl file :
  In file fl -> readlines w (p ++ file)%string = None ->
  forall acc, path (fst acc) = p ->
    exists e, foldM (scan_file w) fl acc = Raise e.
Proof.
  induction fl as [ | f fl IH ]; intros Hin Hr acc Hp; [ destruct Hin | ].
  cbn [foldM]. destruct (scan_file w acc f) as [ acc' | e ] eqn:Ef; cbn [bind].
  - destruct Hin as [ -> | Hin ].
    + exfalso. destruct acc as [s out]. rewrite scan_file_unfold in Ef.
      cbn in Hp. rewrite Hp, Hr in Ef. discriminate.
    + apply IH; try assumption. apply scan_file_path in Ef.
      transitivity (path (fst acc)); assumption.
  - now exists e.
Qed.

Lemma collect_missing p g v names file :
  In file (filter (PyStr.contains ".log") names) ->
  readlines w (p ++ file)%string = None ->
  exists e, collect w (fresh p g v names) = Raise e.
Proof.
  intros Hin Hr. unfold collect.
  exact (scan_files_missing p _ file Hin Hr (fresh p g v names, []) eq_refl).
Qed.

(** Only a file that does not open, or does not decode, under its
    concatenated name makes a run of the loop raise a read error. *)
Lemma scan_file_read_error acc file e :
  scan_file w acc file = Raise e -> is_read_error e = true ->
  readlines w (path (fst acc) ++ file)%string = None.
Proof.
  destruct acc as [s out]. rewrite scan_file_unfold. cbn [fst].
  destruct (readlines w (path s ++ file)) as [ lines | ]; [ | reflexivity ].
  intros H He. apply foldM_Raise in H. destruct H as (s0 & line & _ & H).
  apply scan_line_Raise in H. subst e. discriminate.
Qed.

Lemma collect_read_error p g v names e :
  collect w (fresh p g v names) = Raise e -> is_read_error e = true ->
  exists file, In file (filter (PyStr.contains ".log") names)
               /\ readlines w (p ++ file)%string = None.
Proof.
  unfold collect. cbn [files fresh]. intros H He.
  apply (foldM_Raise_inv (scan_file w) (fun a => path (fst a) = p)) in H.
  - destruct H as (a & file & Hp & Hin & Hb). exists file.
    split; [ exact Hin | ]. rewrite <- Hp.
    exact (scan_file_read_error _ _ _ Hb He).
  - intros a x a' Ha Hx. apply scan_file_path in Hx.
    transitivity (path (fst a)); assumption.
  - reflexivity.
Qed.

Lemma sortStats_no_read_error s e :
  sortStats w s = Raise e -> is_read_error e = false.
Proof.
  unfold sortStats. intros H.
  repeat match type of H with
         | bind ?m _ = Raise _ =>
             let E := fresh "E" in
             destruct m eqn:E; cbn [bind] in H;
             [ | injection H as <-;
                 first [ apply conversions_Raise in E; destruct E as (tok & ->)
                       | apply fancy_index_Raise in E; subst
                       | apply cpu_products_Raise in E; subst ];
                 reflexivity ]
         | (if ?c then _ else _) = Raise _ => destruct c
         end.
  all: discriminate.
Qed.

Lemma init_read_error dir g v names e :
  listdir w dir = Some names ->
  init w dir g v = Raise e -> is_read_error e = true ->
  exists file, In file (filter (PyStr.contains ".log") names)
               /\ readlines w (dir ++ file)%string = None.
Proof.
  intros Hl. rewrite init_unfold, Hl. unfold getStats. intros H He.
  destruct (collect w (fresh dir g v names)) as [ [raw out] | e1 ] eqn:Ec;
    cbn [bind] in H.
  - exfalso. destruct (counts_agree raw); cbn [bind] in H.
    + destruct (sortStats w raw) eqn:Es; cbn [bind] in H; [ discriminate | ].
      injection H as ->. apply sortStats_no_read_error in Es. congruence.
    + injection H as <-. discriminate.
  - injection H as ->. exact (collect_read_error _ _ _ _ _ Ec He).
Qed.

(** C9 (as amended): every file is opened under the plain concatenation
    of [path] and its name, and construction depends on the file system
    only through these names.  When the first listed name does not open
    and read under its concatenation, construction raises the exception
    of that failure on the concatenated name; when this is so for any
    listed name, construction raises some exception.  When every
    concatenated name opens and reads, construction raises neither an
    I/O error nor a decoding error (it may still fail on what these
    files hold).  On the default path ["."], where a listed name with a
    dot put in front can be opened only if it is itself listed,
    construction raises whenever the listing has a name that contains
    [.log]. *)
Theorem init_opens_concatenation dir g v names :
  listdir w dir = Some names ->
  (forall r,
      (forall file, In file (filter (PyStr.contains ".log") names) ->
         r (dir ++ file)%string = open_readlines w (dir ++ file)%string) ->
      init (with_readlines w r) dir g v = init w dir g v)
  /\ (forall file rest err,
         filter (PyStr.contains ".log") names = file :: rest ->
         open_readlines w (dir ++ file)%string = Fails err ->
         init w dir g v = Raise (raised err (dir ++ file)%string))
  /\ (forall file,
         In file (filter (PyStr.contains ".log") names) ->
         readlines w (dir ++ file)%string = None ->
         exists e, init w dir g v = Raise e)
  /\ ((forall file,
          In file (filter (PyStr.contains ".log") names) ->
          readlines w (dir ++ file)%string <> None) ->
      forall e, init w dir g v = Raise e -> is_read_error e = false)
  /\ (dir = "."%string ->
      (forall name, In name names ->
                    readlines w ("." ++ name)%string <> None ->
                    In ("." ++ name)%string names) ->
      filter (PyStr.contains ".log") names <> [] ->
      exists e, init w dir g v = Raise e).
Proof.
  intros Hl.
  assert (Hmissing : forall file,
             In file (filter (PyStr.contains ".log") names) ->
             readlines w (dir ++ file)%string = None ->
             exists e, init w dir g v = Raise e).
  { intros file Hin Hr.
    destruct (collect_missing dir g v names file Hin Hr) as (e & He).
    exists e. rewrite init_unfold, Hl. unfold getStats. now rewrite He. }
  split; [ | split; [ | split; [ | split ] ] ].
  - intros r Hr. rewrite !init_unfold, with_readlines_listdir, Hl.
    assert (E : getStats (with_readlines w r) (fresh dir g v names)
                = getStats w (fresh dir g v names)).
    { unfold getStats, collect.
      now rewrite (scan_files_agree r dir _ Hr). }
    now rewrite E.
  - intros file rest err Hf Hr. rewrite init_unfold, Hl.
    unfold getStats, collect. cbn [files fresh]. rewrite Hf. cbn [foldM].
    unfold scan_file at 1. cbn [path fresh]. now rewrite Hr.
  - exact Hmissing.
  - intros Hall e He. destruct (is_read_error e) eqn:Ee; [ | reflexivity ].
    exfalso. destruct (init_read_error _ _ _ _ _ Hl He Ee) as (file & Hin & Hr).
    exact (Hall file Hin Hr).
  - intros -> Hcwd Hne.
    destruct (first_unopenable (fun f => readlines w ("." ++ f)%string)
                (filter (PyStr.contains ".log") names))
      as [ (f & Hf & Hr) | Hall ].
    + now apply (Hmissing f).
    + exfalso. apply Hne. apply no_dot_closed_list. intros f Hf.
      apply filter_In. apply filter_In in Hf as Hf'. destruct Hf' as [_ Hlog].
      split.
      * apply (Hcwd f); [ now apply filter_In in Hf | now apply Hall ].
      * now apply contains_cons.
Qed.


End ConstructionFacts.

(** Construction on the three runs of [Demo.three_runs], GPU mode on. *)
Lemma init_lengths_agree_witness :
  init Demo.three_runs "logs/" true false = Ok (Demo.sorted_three_gpu, [])
  /\ length (files Demo.sorted_three_gpu) = length (nprocs Demo.sorted_three_gpu)
  /\ length (nprocs Demo.sorted_three_gpu) = length (nthreads Demo.sorted_three_gpu)
  /\ length (nthreads Demo.sorted_three_gpu)
     = length (performance Demo.sorted_three_gpu)
  /\ length (performance Demo.sorted_three_gpu)
     = length (ncpus Demo.sorted_three_gpu)
  /\ (gpuruns Demo.sorted_three_gpu = true ->
      length (ngpus Demo.sorted_three_gpu) = length (files Demo.sorted_three_gpu)).
Proof.
  split; [ vm_compute; reflexivity | ].
  apply (init_lengths_agree Demo.three_runs "logs/" true false _ []).
  vm_compute; reflexivity.
Defined.

Lemma sortStats_ncpus_products_witness :
  sortStats Demo.three_runs Demo.collected_three = Ok Demo.sorted_three
  /\ length (ncpus Demo.sorted_three) = length (nprocs Demo.sorted_three)
  /\ forall i, (i < length (ncpus Demo.sorted_three))%nat ->
       exists p t,
         nth_error (nprocs Demo.sorted_three) i = Some p
         /\ nth_error (nthreads Demo.sorted_three) i = Some t
         /\ nth_error (ncpus Demo.sorted_three) i = Some (np_mul p t)
         /\ ((- 2 ^ 63 <= p * t < 2 ^ 63)%Z ->
             nth_error (ncpus Demo.sorted_three) i = Some (p * t)%Z).
Proof.
  split; [ vm_compute; reflexivity | ].
  apply (sortStats_ncpus_products Demo.three_runs Demo.collected_three).
  vm_compute; reflexivity.
Defined.

Lemma sortStats_ascending_lockstep_witness :
  sortStats Demo.three_runs Demo.collected_three = Ok Demo.sorted_three
  /\ Sorted Qle (performance Demo.sorted_three)
  /\ Permutation [1; 0; 2]%nat (seq 0 3)
  /\ lockstep Some [1; 0; 2]%nat
       (files Demo.collected_three) (files Demo.sorted_three)
  /\ lockstep Ref.int_of_token [1; 0; 2]%nat
       (nprocs Demo.collected_three) (nprocs Demo.sorted_three)
  /\ lockstep Ref.int_of_token [1; 0; 2]%nat
       (nthreads Demo.collected_three) (nthreads Demo.sorted_three)
  /\ lockstep Ref.float_of_token [1; 0; 2]%nat
       (performance Demo.collected_three) (performance Demo.sorted_three)
  /\ (false = true ->
      lockstep Ref.int_of_token [1; 0; 2]%nat
        (ngpus Demo.collected_three) (ngpus Demo.sorted_three)).
Proof.
  split; [ vm_compute; reflexivity | ].
  apply (sortStats_ascending_lockstep Demo.three_runs Demo.collected_three
           Demo.sorted_three [21 # 2; 26 # 5; 20 # 1]).
  - vm_compute; reflexivity.
  - vm_compute; reflexivity.
  - apply (argsort_stable_spec [21 # 2; 26 # 5; 20 # 1]).
Defined.

(** C1 (as stated) fails: [Ref.argsort_reversing] returns, for every
    array, indices that sort it, as numpy's default kind promises; with it
    the two runs of equal performance, collected as first.log then
    second.log, come out of construction as second.log then first.log. *)
Lemma sortStats_reorders_ties :
  (forall v, argsort_spec v (np_argsort Demo.tied_runs v))
  /\ getStats Demo.tied_runs
       (mkStats "logs/"%string false false
                ["first.log"; "second.log"]%string [] [] [] [] [])
     = Ok (Demo.collected_tied, [])
  /\ sortStats Demo.tied_runs Demo.collected_tied = Ok Demo.sorted_tied
  /\ init Demo.tied_runs "logs/" false false = Ok (Demo.sorted_tied, [])
  /\ with_performance (15 # 2)
       (rows (files Demo.collected_tied) [4; 2]%Z [2; 4]%Z [15 # 2; 15 # 2])
     = [ ("first.log"%string, 4%Z, 2%Z, 15 # 2);
         ("second.log"%string, 2%Z, 4%Z, 15 # 2) ]
  /\ with_performance (15 # 2)
       (rows (files Demo.sorted_tied) (nprocs Demo.sorted_tied)
             (nthreads Demo.sorted_tied) (performance Demo.sorted_tied))
     = [ ("second.log"%string, 2%Z, 4%Z, 15 # 2);
         ("first.log"%string, 4%Z, 2%Z, 15 # 2) ].
Proof.
  split; [ exact argsort_reversing_spec | ].
  repeat split; vm_compute; reflexivity.
Qed.

Lemma sortStats_keeps_ties_when_stable_witness :
  sortStats Demo.tied_runs_stable Demo.collected_tied
  = Ok Demo.sorted_tied_stable
  /\ argsort_stable_on [15 # 2; 15 # 2] [0; 1]%nat
  /\ (forall q,
         with_performance q
           (rows (files Demo.sorted_tied_stable) (nprocs Demo.sorted_tied_stable)
                 (nthreads Demo.sorted_tied_stable)
                 (performance Demo.sorted_tied_stable))
         = with_performance q
             (rows (files Demo.collected_tied) [4; 2]%Z [2; 4]%Z
                   [15 # 2; 15 # 2]))
  /\ (gpuruns Demo.collected_tied = true ->
      forall gpus q,
        mapM (convert Ref.int_of_token) (ngpus Demo.collected_tied) = Ok gpus ->
        with_performance q
          (combine (ngpus Demo.sorted_tied_stable)
                   (performance Demo.sorted_tied_stable))
        = with_performance q (combine gpus [15 # 2; 15 # 2])).
Proof.
  assert (Hst : argsort_stable_on [15 # 2; 15 # 2] [0; 1]%nat).
  { repeat constructor. }
  split; [ vm_compute; reflexivity | ]. split; [ exact Hst | ].
  apply (sortStats_keeps_ties_when_stable Demo.tied_runs_stable
           Demo.collected_tied Demo.sorted_tied_stable
           [4; 2]%Z [2; 4]%Z [15 # 2; 15 # 2]).
  - vm_compute; reflexivity.
  - vm_compute; reflexivity.
  - vm_compute; reflexivity.
  - vm_compute; reflexivity.
  - apply (argsort_stable_spec [15 # 2; 15 # 2]).
  - exact Hst.
Defined.

Lemma init_consistency_error_witness :
  init Demo.unfinished "logs/" true false
  = Raise (AssertionError consistency_msg)
  /\ collect Demo.extra_gpu_line
       (fresh "logs/" true false ["a.log"%string])
     = Ok (mkStats "logs/"%string true false ["a.log"%string]
                   ["4"%string] ["2"%string] ["10.5"%string] []
                   ["2"; "1"]%string, [])
  /\ getStats Demo.extra_gpu_line
       (fresh "logs/" true false ["a.log"%string])
     = Ok (mkStats "logs/"%string true false ["a.log"%string]
                   ["4"%string] ["2"%string] ["10.5"%string] []
                   ["2"; "1"]%string, []).
Proof.
  split; [ vm_compute; reflexivity | ].
  split; [ vm_compute; reflexivity | ].
  apply (proj1 (proj2 (init_consistency_error Demo.extra_gpu_line
                         "logs/" true false)));
    vm_compute; reflexivity.
Defined.

Lemma init_no_marker_lines_witness :
  listdir Demo.silent "logs/" = Some ["empty.log"%string]
  /\ exists out,
       init Demo.silent "logs/" true false
       = Ok (mkStats "logs/"%string true false [] [] [] [] [] [], out).
Proof.
  split; [ vm_compute; reflexivity | ].
  apply (init_no_marker_lines Demo.silent "logs/" true false
           ["empty.log"%string]).
  - vm_compute; reflexivity.
  - intros file [ <- | [] ]. eexists. split; [ vm_compute; reflexivity | ].
    repeat constructor.
  - apply (argsort_stable_spec []).
Defined.

(** C8 at the default path: the current directory holds the one log
    [empty.log], which has no marker line.  Construction opens
    [.empty.log], the concatenation of ["."] and the name, and raises
    the I/O error; on the same directory given as ["./"] it returns the
    object with every sequence empty. *)
Theorem init_no_marker_lines_default_path :
  listdir Demo.silent_here "." = Some ["empty.log"%string]
  /\ (exists lines,
         readlines Demo.silent_here "./empty.log" = Some lines
         /\ readlines Demo.silent_here "empty.log" = Some lines
         /\ Forall (fun line => recognized false line = false) lines)
  /\ init Demo.silent_here "." false false = Raise (OSError ".empty.log")
  /\ init Demo.silent_here "./" false false
     = Ok (mkStats "./"%string false false [] [] [] [] [] [], []).
Proof.
  split; [ vm_compute; reflexivity | ]. split.
  - eexists. split; [ vm_compute; reflexivity | ].
    split; [ vm_compute; reflexivity | ]. repeat constructor.
  - split; vm_compute; reflexivity.
Qed.

(** ** The loops of [subdivideomp] *)

Lemma append_last_snoc {A : Type} (b0 : list A) (mid : list (list A))
  (cur : list A) (x : A) :
  append_last (b0 :: mid ++ [cur]) x = Ok (b0 :: mid ++ [cur ++ [x]]).
Proof.
  revert b0; induction mid as [ | b mid IH ]; intros b0.
  - reflexivity.
  - change (append_last (b0 :: (b :: mid) ++ [cur]) x)
      with (r <- append_last (b :: mid ++ [cur]) x ;; Ok (b0 :: r)).
    now rewrite IH.
Qed.

Lemma getitem0_at {A : Type} (done : list A) (x : A) (rest : list A)
  (tl : list (list A)) (k : nat) :
  length done = k -> getitem0 ((done ++ x :: rest) :: tl) k = Ok x.
Proof.
  intros <-. unfold getitem0, getitem. cbn.
  now rewrite nth_error_app2, Nat.sub_diag by lia.
Qed.

Lemma snoc_app {A : Type} (l : list A) (x : A) (r : list A) :
  l ++ x :: r = (l ++ [x]) ++ r.
Proof. now rewrite <- app_assoc. Qed.

Lemma pick_cons {A : Type} (k key : Z) (keys : list Z) (x : A) (vals : list A) :
  pick k (key :: keys) (x :: vals)
  = if (key =? k)%Z then x :: pick k keys vals else pick k keys vals.
Proof. unfold pick. cbn. now destruct (key =? k)%Z. Qed.

(** The scan of bucket 0 from position [k] on: the last bucket of every
    sequence receives the values of the positions whose thread count is
    [omp], in order.  ([ngpus] takes part in GPU mode only.) *)
Lemma route_loop (omp : Z) (p : string) (g v : bool)
  (Fm : list (list string)) (Pm Tm Cm Gm : list (list Z)) (Qm : list (list Q))
  (G0 : list (list Z)) (Tr : list Z) :
  forall (k : nat) (Fd Fr Fc : list string)
         (Pd Pr Pc Td Tc Cd Cr Cc Gd Gr Gc : list Z) (Qd Qr Qc : list Q),
    length Fd = k -> length Pd = k -> length Td = k -> length Cd = k ->
    length Qd = k -> (if g then length Gd = k else True) ->
    length Fr = length Tr -> length Pr = length Tr -> length Cr = length Tr ->
    length Qr = length Tr -> (if g then length Gr = length Tr else True) ->
    foldM (route omp) (combine (seq k (length Tr)) Tr)
      (mkStats p g v
               ((Fd ++ Fr) :: Fm ++ [Fc]) ((Pd ++ Pr) :: Pm ++ [Pc])
               ((Td ++ Tr) :: Tm ++ [Tc]) ((Qd ++ Qr) :: Qm ++ [Qc])
               ((Cd ++ Cr) :: Cm ++ [Cc])
               (if g then (Gd ++ Gr) :: Gm ++ [Gc] else G0))
    = Ok (mkStats p g v
                  ((Fd ++ Fr) :: Fm ++ [Fc ++ pick omp Tr Fr])
                  ((Pd ++ Pr) :: Pm ++ [Pc ++ pick omp Tr Pr])
                  ((Td ++ Tr) :: Tm ++ [Tc ++ pick omp Tr Tr])
                  ((Qd ++ Qr) :: Qm ++ [Qc ++ pick omp Tr Qr])
                  ((Cd ++ Cr) :: Cm ++ [Cc ++ pick omp Tr Cr])
                  (if g then (Gd ++ Gr) :: Gm ++ [Gc ++ pick omp Tr Gr]
                   else G0)).
Proof.
  destruct g.
  - induction Tr as [ | t Tr IH ];
      intros k Fd Fr Fc Pd Pr Pc Td Tc Cd Cr Cc Gd Gr Gc Qd Qr Qc
             HFd HPd HTd HCd HQd HGd HFr HPr HCr HQr HGr.
    + destruct Fr, Pr, Cr, Qr, Gr; try discriminate.
      cbn. now rewrite !app_nil_r.
    + destruct Fr as [ | f Fr ], Pr as [ | pr Pr ], Cr as [ | c Cr ],
        Qr as [ | q Qr ], Gr as [ | gp Gr ]; try discriminate.
      cbn [length seq combine foldM]. rewrite !pick_cons.
      unfold route at 1. cbn [nthreads files nprocs ncpus performance ngpus
                                gpuruns path verbose].
      destruct (t =? omp)%Z eqn:E.
      * repeat (first [ rewrite append_last_snoc
                      | rewrite (getitem0_at _ _ _ _ k) by assumption ];
                cbn [bind]).
        rewrite (snoc_app Fd), (snoc_app Pd), (snoc_app Td), (snoc_app Cd),
          (snoc_app Qd), (snoc_app Gd).
        rewrite (IH (S k)); try (rewrite length_app; cbn; lia);
          try (cbn in *; lia).
        rewrite <- !(snoc_app _ _ (pick _ _ _)). reflexivity.
      * cbn [bind].
        rewrite (snoc_app Fd), (snoc_app Pd), (snoc_app Td), (snoc_app Cd),
          (snoc_app Qd), (snoc_app Gd).
        rewrite (IH (S k)); try (rewrite length_app; cbn; lia);
          try (cbn in *; lia).
        reflexivity.
  - induction Tr as [ | t Tr IH ];
      intros k Fd Fr Fc Pd Pr Pc Td Tc Cd Cr Cc Gd Gr Gc Qd Qr Qc
             HFd HPd HTd HCd HQd HGd HFr HPr HCr HQr HGr.
    + destruct Fr, Pr, Cr, Qr; try discriminate.
      cbn. now rewrite !app_nil_r.
    + destruct Fr as [ | f Fr ], Pr as [ | pr Pr ], Cr as [ | c Cr ],
        Qr as [ | q Qr ]; try discriminate.
      cbn [length seq combine foldM]. rewrite !pick_cons.
      unfold route at 1. cbn [nthreads files nprocs ncpus performance ngpus
                                gpuruns path verbose].
      destruct (t =? omp)%Z eqn:E.
      * repeat (first [ rewrite append_last_snoc
                      | rewrite (getitem0_at _ _ _ _ k) by assumption ];
                cbn [bind]).
        rewrite (snoc_app Fd), (snoc_app Pd), (snoc_app Td), (snoc_app Cd),
          (snoc_app Qd).
        rewrite (IH (S k) _ _ _ _ _ _ _ _ _ _ _ Gd Gr Gc);
          try (rewrite length_app; cbn; lia); try (cbn in *; lia); try exact I.
        rewrite <- !(snoc_app _ _ (pick _ _ _)). reflexivity.
      * cbn [bind].
        rewrite (snoc_app Fd), (snoc_app Pd), (snoc_app Td), (snoc_app Cd),
          (snoc_app Qd).
        rewrite (IH (S k) _ _ _ _ _ _ _ _ _ _ _ Gd Gr Gc);
          try (rewrite length_app; cbn; lia); try (cbn in *; lia); try exact I.
        reflexivity.
Qed.


(** One pass of the outer loop adds the bucket of [omp] to every
    sequence. *)
Lemma bucket_adds (omp : Z) (p : string) (g v : bool)
  (F0 : list string) (P0 T0 C0 G0 : list Z) (Q0 : list Q)
  (Fm : list (list string)) (Pm Tm Cm Gm : list (list Z)) (Qm : list (list Q)) :
  length F0 = length T0 -> length P0 = length T0 -> length C0 = length T0 ->
  length Q0 = length T0 -> (if g then length G0 = length T0 else True) ->
  bucket (mkStats p g v (F0 :: Fm) (P0 :: Pm) (T0 :: Tm) (Q0 :: Qm) (C0 :: Cm)
                  (if g then G0 :: Gm else [])) omp
  = Ok (mkStats p g v
                (F0 :: Fm ++ [pick omp T0 F0]) (P0 :: Pm ++ [pick omp T0 P0])
                (T0 :: Tm ++ [pick omp T0 T0]) (Q0 :: Qm ++ [pick omp T0 Q0])
                (C0 :: Cm ++ [pick omp T0 C0])
                (if g then G0 :: Gm ++ [pick omp T0 G0] else [])).
Proof.
  intros HF HP HC HQ HG. unfold bucket.
  cbn [nthreads files nprocs ncpus performance ngpus gpuruns path verbose].
  cbn [app getitem nth_error bind]. unfold enumerate.
  pose proof (route_loop omp p g v Fm Pm Tm Cm Gm Qm [] T0 0
                [] F0 [] [] P0 [] [] [] [] C0 [] [] G0 [] [] Q0 []) as L.
  cbn [app] in L.
  replace (if g then (if g then G0 :: Gm else []) ++ [[]]
           else if g then G0 :: Gm else [])
    with (if g then G0 :: Gm ++ [[]] else @nil (list Z)) by now destruct g.
  rewrite L; try reflexivity; try assumption.
  now destruct g.
Qed.

(** The outer loop adds the buckets of [omps] in order. *)
Lemma buckets_add (p : string) (g v : bool)
  (F0 : list string) (P0 T0 C0 G0 : list Z) (Q0 : list Q) (omps : list Z) :
  length F0 = length T0 -> length P0 = length T0 -> length C0 = length T0 ->
  length Q0 = length T0 -> (if g then length G0 = length T0 else True) ->
  forall (Fm : list (list string)) (Pm Tm Cm Gm : list (list Z))
         (Qm : list (list Q)),
    foldM bucket omps
      (mkStats p g v (F0 :: Fm) (P0 :: Pm) (T0 :: Tm) (Q0 :: Qm) (C0 :: Cm)
               (if g then G0 :: Gm else []))
    = Ok (mkStats p g v
            (F0 :: Fm ++ map (fun omp => pick omp T0 F0) omps)
            (P0 :: Pm ++ map (fun omp => pick omp T0 P0) omps)
            (T0 :: Tm ++ map (fun omp => pick omp T0 T0) omps)
            (Q0 :: Qm ++ map (fun omp => pick omp T0 Q0) omps)
            (C0 :: Cm ++ map (fun omp => pick omp T0 C0) omps)
            (if g then G0 :: Gm ++ map (fun omp => pick omp T0 G0) omps
             else [])).
Proof.
  intros HF HP HC HQ HG.
  induction omps as [ | omp omps IH ]; intros Fm Pm Tm Cm Gm Qm; cbn [foldM map].
  - now rewrite !app_nil_r.
  - rewrite bucket_adds by assumption. cbn [bind].
    rewrite IH. now rewrite <- !app_assoc.
Qed.


(** ** The partition *)

Lemma set_iter_count (l omps : list Z) :
  set_iter_spec l omps -> length omps = distinct_count l.
Proof.
  intros [Hnd Hin]. unfold distinct_count. apply Permutation_length.
  apply NoDup_Permutation; [ exact Hnd | apply NoDup_nodup | ].
  intros x. now rewrite nodup_In.
Qed.

Lemma list_sum_map_add {X : Type} (f g : X -> nat) (l : list X) :
  list_sum (map (fun x => f x + g x)%nat l)
  = (list_sum (map f l) + list_sum (map g l))%nat.
Proof.
  induction l as [ | x l IH ]; [ reflexivity | ].
  cbn [map].
  change (f x + g x + list_sum (map (fun x => f x + g x) l)
          = f x + list_sum (map f l) + (g x + list_sum (map g l)))%nat.
  rewrite IH. lia.
Qed.

(** A value of a duplicate-free list is counted once by it. *)
Lemma one_bucket_per_value (key : Z) (omps : list Z) :
  NoDup omps -> In key omps ->
  list_sum (map (fun omp => if (key =? omp)%Z then 1 else 0)%nat omps) = 1%nat.
Proof.
  induction 1 as [ | omp omps Hnotin Hnd IH ]; intros Hin; [ destruct Hin | ].
  cbn. destruct (Z.eqb_spec key omp) as [ -> | Hne ].
  - f_equal. clear IH Hin Hnd. induction omps as [ | o omps IH ]; [ reflexivity | ].
    cbn. destruct (Z.eqb_spec omp o) as [ -> | _ ].
    + exfalso. apply Hnotin. now left.
    + apply IH. intros C. apply Hnotin. now right.
  - destruct Hin as [ E | Hin ]; [ congruence | ]. now apply IH.
Qed.

(** The buckets of a duplicate-free [omps] that covers the keys hold every
    record once. *)
Lemma pick_total {A : Type} (omps keys : list Z) (vals : list A) :
  NoDup omps -> (forall x, In x keys -> In x omps) ->
  length vals = length keys ->
  length (concat (map (fun omp => pick omp keys vals) omps)) = length keys.
Proof.
  intros Hnd. rewrite length_concat, map_map.
  revert vals; induction keys as [ | key keys IH ]; intros vals Hcover Hlen.
  - cbn. clear. induction omps as [ | o omps IHo ]; cbn; [ reflexivity | ].
    exact IHo.
  - destruct vals as [ | x vals ]; [ discriminate | ].
    rewrite (map_ext _ (fun omp => (if (key =? omp)%Z then 1 else 0)
                                   + length (pick omp keys vals))%nat).
    2:{ intros omp. rewrite pick_cons. now destruct (key =? omp)%Z. }
    rewrite list_sum_map_add, one_bucket_per_value, IH; cbn in *; auto; lia.
Qed.

Lemma in_combine_same {A : Type} (l : list A) (a b : A) :
  In (a, b) (combine l l) -> a = b.
Proof.
  induction l as [ | x l IH ]; cbn; [ tauto | ].
  intros [ E | H ]; [ congruence | now apply IH ].
Qed.

Lemma pick_keys (omp : Z) (keys : list Z) (x : Z) :
  In x (pick omp keys keys) -> x = omp.
Proof.
  unfold pick. rewrite in_map_iff. intros ([a b] & <- & H).
  apply filter_In in H. destruct H as [H E]. cbn in *.
  apply in_combine_same in H. apply Z.eqb_eq in E. congruence.
Qed.

Lemma pick_uniform (omp : Z) (keys : list Z) : uniform (pick omp keys keys).
Proof.
  intros x y Hx Hy. apply pick_keys in Hx, Hy. congruence.
Qed.

(** A bucket holds the values of the positions of its key, one position
    after the other. *)
Lemma pick_from_positions {A : Type} (omp : Z) (keys : list Z) :
  forall (vals done : list A) (k : nat),
    length done = k -> length vals = length keys ->
    Forall2 (fun i x => nth_error (done ++ vals) i = Some x)
      (map fst (filter (fun ik => (snd ik =? omp)%Z)
                       (combine (seq k (length keys)) keys)))
      (pick omp keys vals).
Proof.
  induction keys as [ | key keys IH ]; intros vals done k Hk Hlen.
  - constructor.
  - destruct vals as [ | x vals ]; [ discriminate | ].
    cbn [length seq combine filter snd]. rewrite pick_cons.
    assert (Htl : Forall2 (fun i y => nth_error (done ++ x :: vals) i = Some y)
                    (map fst (filter (fun ik => (snd ik =? omp)%Z)
                                     (combine (seq (S k) (length keys)) keys)))
                    (pick omp keys vals)).
    { rewrite snoc_app. apply IH; [ | cbn in Hlen; lia ].
      rewrite length_app; cbn; lia. }
    destruct (key =? omp)%Z; [ | exact Htl ].
    cbn [map fst]. constructor; [ | exact Htl ].
    subst k. now rewrite nth_error_app2, Nat.sub_diag by lia.
Qed.

Lemma pick_at_positions {A : Type} (omp : Z) (keys : list Z) (vals : list A) :
  length vals = length keys ->
  Forall2 (fun i x => nth_error vals i = Some x)
          (positions omp keys) (pick omp keys vals).
Proof. intros H. exact (pick_from_positions omp keys vals [] 0 eq_refl H). Qed.

(** Position [j] of the bucket of [omp] and position [i] of the flat
    sequence hold the same value, for the [j]-th position [i] of [omp]. *)
Lemma pick_at {A : Type} (omp : Z) (keys : list Z) (vals : list A) (j i : nat) :
  length vals = length keys ->
  nth_error (positions omp keys) j = Some i ->
  nth_error (pick omp keys vals) j = nth_error vals i.
Proof.
  intros Hlen Hj.
  destruct (Forall2_nth_error_left _ _ _ _ _ (pick_at_positions omp keys vals Hlen) Hj)
    as (y & Hy & Hi).
  congruence.
Qed.

Lemma at2_map {A : Type} (f : Z -> list A) (omps : list Z) (b j : nat) :
  at2 (map f omps) b j
  = match nth_error omps b with
    | Some omp => nth_error (f omp) j
    | None => None
    end.
Proof.
  unfold at2. rewrite nth_error_map. now destruct (nth_error omps b).
Qed.


Lemma append_last_length {A : Type} (ll ll' : list (list A)) (x : A) :
  append_last ll x = Ok ll' -> length ll' = length ll.
Proof.
  revert ll'; induction ll as [ | b ll IH ]; intros ll' H; [ discriminate | ].
  destruct ll as [ | b' ll ].
  - cbn in H. now injection H as <-.
  - change (append_last (b :: b' :: ll) x)
      with (r <- append_last (b' :: ll) x ;; Ok (b :: r)) in H.
    bind_inv H. injection H as <-. cbn. f_equal. now apply IH.
Qed.

Lemma route_buckets (omp : Z) (s s' : NestedStats) (it : nat * Z) :
  route omp s it = Ok s' -> length (nthreads s') = length (nthreads s).
Proof.
  destruct it as [statId stat]. unfold route.
  destruct (stat =? omp)%Z; [ | now intros [= <-] ].
  intros H. bind_inv H. apply append_last_length in E.
  repeat bind_inv H.
  destruct (gpuruns s); repeat bind_inv H; now injection H as <-.
Qed.

Lemma bucket_buckets (omp : Z) (s s' : NestedStats) :
  bucket s omp = Ok s' -> length (nthreads s') = S (length (nthreads s)).
Proof.
  unfold bucket. intros H. bind_inv H.
  apply (foldM_invariant (route omp)
           (fun x => length (nthreads x) = S (length (nthreads s)))) in H.
  - exact H.
  - intros x it x' Hx Hr. apply route_buckets in Hr. congruence.
  - cbn. rewrite length_app. cbn. lia.
Qed.

Lemma foldM_bucket_buckets (omps : list Z) (s s' : NestedStats) :
  foldM bucket omps s = Ok s' ->
  length (nthreads s') = (length (nthreads s) + length omps)%nat.
Proof.
  revert s; induction omps as [ | omp omps IH ]; intros s H; cbn in H.
  - injection H as <-. cbn. lia.
  - bind_inv H. apply IH in H. apply bucket_buckets in E. cbn. lia.
Qed.

Lemma unwrap_buckets (s s' : NestedStats) :
  unwrap s = Ok s' -> length (nthreads s) = S (length (nthreads s')).
Proof.
  unfold unwrap. intros H. repeat bind_inv H.
  assert (Ht : nthreads s' = a1).
  { destruct (gpuruns s); repeat bind_inv H; now injection H as <-. }
  rewrite Ht. destruct (nthreads s); [ discriminate | ].
  cbn in E1. now injection E1 as <-.
Qed.

Section SubdivisionFacts.

Variable w : World.

(** On a flat record set whose sequences have one length, a subdivision
    along more than one thread count returns the partition along the
    set's iteration order. *)
Lemma subdivideomp_flat (s : FlatStats) :
  length (files s) = length (nthreads s) ->
  length (nprocs s) = length (nthreads s) ->
  length (performance s) = length (nthreads s) ->
  length (ncpus s) = length (nthreads s) ->
  (gpuruns s = true -> length (ngpus s) = length (nthreads s)) ->
  (1 < length (set_iter w (nthreads s)))%nat ->
  nthreads s <> [] ->
  subdivideomp w (Flat s)
  = Ok (Nested (subdivided (set_iter w (nthreads s)) s),
        [subdividing_msg (length (set_iter w (nthreads s)))]).
Proof.
  intros HF HP HQ HC HG Hmany Hne. unfold subdivideomp.
  destruct (nthreads s) as [ | t0 ts ] eqn:ET; [ contradiction | ].
  rewrite <- ET in *. apply Nat.ltb_lt in Hmany. rewrite Hmany.
  destruct s as [p g v F P T Q C G]. cbn in *.
  unfold wrap. cbn [path gpuruns verbose files nprocs nthreads performance
                      ncpus ngpus].
  rewrite (buckets_add p g v F P T C G Q (set_iter w T) HF HP HC HQ
             ltac:(destruct g; auto) [] [] [] [] [] []).
  cbn [bind app]. unfold unwrap, subdivided. cbn. now destruct g.
Qed.

(** C4: on a flat record set with more than one distinct thread count,
    [subdivideomp] leaves in every sequence one bucket per distinct
    count; the buckets of a sequence hold as many entries together as the
    flat sequence had; every bucket of [nthreads] holds one value only;
    and every position of every bucket holds, in all sequences, the
    values of one and the same record of the flat set. *)
Theorem subdivideomp_partitions (s : FlatStats) :
  length (files s) = length (nthreads s) ->
  length (nprocs s) = length (nthreads s) ->
  length (performance s) = length (nthreads s) ->
  length (ncpus s) = length (nthreads s) ->
  (gpuruns s = true -> length (ngpus s) = length (nthreads s)) ->
  set_iter_spec (nthreads s) (set_iter w (nthreads s)) ->
  (1 < distinct_count (nthreads s))%nat ->
  exists s' out,
    subdivideomp w (Flat s) = Ok (Nested s', out)
    /\ (length (files s') = distinct_count (nthreads s)
        /\ length (nprocs s') = distinct_count (nthreads s)
        /\ length (nthreads s') = distinct_count (nthreads s)
        /\ length (performance s') = distinct_count (nthreads s)
        /\ length (ncpus s') = distinct_count (nthreads s)
        /\ (gpuruns s = true ->
            length (ngpus s') = distinct_count (nthreads s)))
    /\ (length (concat (files s')) = length (files s)
        /\ length (concat (nprocs s')) = length (nprocs s)
        /\ length (concat (nthreads s')) = length (nthreads s)
        /\ length (concat (performance s')) = length (performance s)
        /\ length (concat (ncpus s')) = length (ncpus s)
        /\ (gpuruns s = true ->
            length (concat (ngpus s')) = length (ngpus s)))
    /\ Forall uniform (nthreads s')
    /\ (forall b j t,
           at2 (nthreads s') b j = Some t ->
           exists i,
             nth_error (nthreads s) i = Some t
             /\ at2 (files s') b j = nth_error (files s) i
             /\ at2 (nprocs s') b j = nth_error (nprocs s) i
             /\ at2 (performance s') b j = nth_error (performance s) i
             /\ at2 (ncpus s') b j = nth_error (ncpus s) i
             /\ (gpuruns s = true ->
                 at2 (ngpus s') b j = nth_error (ngpus s) i)).
Proof.
  intros HF HP HQ HC HG Hset Hmany.
  pose proof (set_iter_count _ _ Hset) as Hcount.
  destruct Hset as [Hnd Hin].
  assert (Hne : nthreads s <> []).
  { intros E. rewrite E in Hmany. cbn in Hmany. lia. }
  exists (subdivided (set_iter w (nthreads s)) s).
  eexists. split.
  { apply subdivideomp_flat; try assumption. now rewrite Hcount. }
  assert (Hcover : forall x, In x (nthreads s) -> In x (set_iter w (nthreads s)))
    by (intros x; apply Hin).
  unfold subdivided.
  cbn [files nprocs nthreads performance ncpus ngpus gpuruns].
  split; [ | split; [ | split ] ].
  - rewrite !length_map. repeat split; try exact Hcount.
    intros G. rewrite G. now rewrite length_map.
  - rewrite !pick_total by (assumption || reflexivity).
    repeat split; try congruence.
    intros G. rewrite G. rewrite pick_total by auto. now rewrite HG.
  - apply Forall_forall. intros bkt Hb. apply in_map_iff in Hb.
    destruct Hb as (omp & <- & _). apply pick_uniform.
  - intros b j t. rewrite !at2_map.
    destruct (nth_error (set_iter w (nthreads s)) b) as [ omp | ] eqn:Eb;
      [ | discriminate ].
    intros Ht.
    destruct (Forall2_nth_error_right _ _ _ _ _
                (pick_at_positions omp (nthreads s) (nthreads s) eq_refl) Ht)
      as (i & Hi & Hti).
    exists i. split; [ exact Hti | ].
    rewrite !(pick_at omp (nthreads s) _ j i) by assumption.
    repeat split.
    intros G. rewrite G, at2_map, Eb. apply pick_at; auto.
Qed.


(** C10: on an object without records ([nthreads] empty) [subdivideomp]
    raises IndexError: its guard reads [nthreads[0]] first. *)
Theorem subdivideomp_no_records (st : Stats) :
  len_nthreads st = 0%nat -> subdivideomp w st = Raise IndexError.
Proof.
  destruct st as [s | s]; cbn; intros H;
    (destruct (nthreads s); [ reflexivity | discriminate ]).
Qed.

(** C5: on an object already subdivided (its [nthreads] a non-empty list
    of buckets) [subdivideomp] prints its notice and leaves the object as
    it is; so after any call that returned, a further call returns the
    same object; and after a call that subdivided, the further call is the
    notice alone. *)
Theorem subdivideomp_idempotent :
  (forall s : NestedStats,
      nthreads s <> [] ->
      subdivideomp w (Nested s) = Ok (Nested s, [already_msg]))
  /\ (forall st st1 out1,
         subdivideomp w st = Ok (st1, out1) ->
         exists out2, subdivideomp w st1 = Ok (st1, out2))
  /\ (forall (s : FlatStats) (s1 : NestedStats) out1,
         subdivideomp w (Flat s) = Ok (Nested s1, out1) ->
         subdivideomp w (Nested s1) = Ok (Nested s1, [already_msg])).
Proof.
  assert (Hnested : forall s : NestedStats,
             nthreads s <> [] ->
             subdivideomp w (Nested s) = Ok (Nested s, [already_msg])).
  { intros s Hne. unfold subdivideomp.
    destruct (nthreads s); [ contradiction | reflexivity ]. }
  assert (Hflat : forall (s : FlatStats) (s1 : NestedStats) out1,
             subdivideomp w (Flat s) = Ok (Nested s1, out1) ->
             nthreads s1 <> []).
  { intros s s1 out1 H. unfold subdivideomp in H.
    destruct (nthreads s) as [ | t0 ts ] eqn:ET; [ discriminate | ].
    rewrite <- ET in H.
    destruct (1 <? length (set_iter w (nthreads s)))%nat eqn:Hmany;
      [ | discriminate ].
    bind_inv H. bind_inv H. injection H as <- _.
    apply foldM_bucket_buckets in E. apply unwrap_buckets in E0.
    apply Nat.ltb_lt in Hmany. cbn in E.
    intros C. rewrite C in E0. cbn in E0. lia. }
  split; [ exact Hnested | split ].
  - intros st st1 out1 H. destruct st1 as [s1 | s1].
    + destruct st as [s | s].
      * exists out1. unfold subdivideomp in H |- *.
        destruct (nthreads s) as [ | t0 ts ] eqn:ET; [ discriminate | ].
        rewrite <- ET in H.
        destruct (1 <? length (set_iter w (nthreads s)))%nat eqn:Hmany.
        -- bind_inv H. bind_inv H. discriminate.
        -- injection H as <- <-. rewrite ET. rewrite <- ET. now rewrite Hmany.
      * unfold subdivideomp in H. destruct (nthreads s); discriminate.
    + exists [already_msg]. apply Hnested. destruct st as [s | s].
      * eapply Hflat; eassumption.
      * unfold subdivideomp in H.
        destruct (nthreads s) eqn:ET; [ discriminate | ].
        injection H as <- _. congruence.
  - intros s s1 out1 H. apply Hnested. eapply Hflat; eassumption.
Qed.


End SubdivisionFacts.


(** Iteration in order of first occurrence meets the promise of [set]. *)
Lemma first_seen_spec (l : list Z) : set_iter_spec l (Ref.first_seen l).
Proof.
  induction l as [ | x l [IHnd IHin] ]; split; cbn.
  - constructor.
  - tauto.
  - constructor.
    + rewrite filter_In. intros [_ H]. now rewrite Z.eqb_refl in H.
    + now apply NoDup_filter.
  - intros y. rewrite filter_In, IHin.
    destruct (Z.eqb_spec y x) as [ -> | Hne ]; cbn; intuition congruence.
Qed.

Lemma subdivideomp_partitions_witness :
  exists s' out,
    subdivideomp Demo.three_runs (Flat Demo.sorted_three) = Ok (Nested s', out)
    /\ (length (files s') = 2%nat
        /\ length (nprocs s') = 2%nat
        /\ length (nthreads s') = 2%nat
        /\ length (performance s') = 2%nat
        /\ length (ncpus s') = 2%nat
        /\ (false = true -> length (ngpus s') = 2%nat))
    /\ (length (concat (files s')) = 3%nat
        /\ length (concat (nprocs s')) = 3%nat
        /\ length (concat (nthreads s')) = 3%nat
        /\ length (concat (performance s')) = 3%nat
        /\ length (concat (ncpus s')) = 3%nat
        /\ (false = true -> length (concat (ngpus s')) = 0%nat))
    /\ Forall uniform (nthreads s')
    /\ (forall b j t,
           at2 (nthreads s') b j = Some t ->
           exists i,
             nth_error (nthreads Demo.sorted_three) i = Some t
             /\ at2 (files s') b j = nth_error (files Demo.sorted_three) i
             /\ at2 (nprocs s') b j = nth_error (nprocs Demo.sorted_three) i
             /\ at2 (performance s') b j
                = nth_error (performance Demo.sorted_three) i
             /\ at2 (ncpus s') b j = nth_error (ncpus Demo.sorted_three) i
             /\ (false = true ->
                 at2 (ngpus s') b j = nth_error (ngpus Demo.sorted_three) i)).
Proof.
  apply (subdivideomp_partitions Demo.three_runs Demo.sorted_three);
    try reflexivity.
  - discriminate.
  - apply (first_seen_spec [4; 2; 2]%Z).
  - vm_compute. lia.
Defined.

Lemma subdivideomp_idempotent_witness :
  subdivideomp Demo.three_runs (Flat Demo.sorted_three)
  = Ok (Nested Demo.nested_three, [subdividing_msg 2])
  /\ subdivideomp Demo.three_runs (Nested Demo.nested_three)
     = Ok (Nested Demo.nested_three, [already_msg]).
Proof.
  assert (H : subdivideomp Demo.three_runs (Flat Demo.sorted_three)
              = Ok (Nested Demo.nested_three, [subdividing_msg 2]))
    by (vm_compute; reflexivity).
  split; [ exact H | ].
  exact (proj2 (proj2 (subdivideomp_idempotent Demo.three_runs)) _ _ _ H).
Defined.

Lemma subdivideomp_no_records_witness :
  init Demo.silent "logs/" true false = Ok (Demo.sorted_silent, [])
  /\ len_nthreads (Flat Demo.sorted_silent) = 0%nat
  /\ subdivideomp Demo.silent (Flat Demo.sorted_silent) = Raise IndexError.
Proof.
  split; [ vm_compute; reflexivity | ]. split; [ reflexivity | ].
  apply (subdivideomp_no_records Demo.silent (Flat Demo.sorted_silent)).
  reflexivity.
Defined.

(** C9 (as stated) fails: the path [logs] has no trailing separator and
    the directory lists [a.log], yet construction succeeds, on the
    contents of the file [logsa.log] that lies beside the directory. *)
Lemma init_reads_sibling_file :
  listdir Demo.sibling "logs" = Some ["a.log"%string]
  /\ readlines Demo.sibling "logs/a.log"
     = Some (Demo.run_log "2" "4" "10.5")
  /\ readlines Demo.sibling "logsa.log"
     = Some (Demo.run_log "8" "1" "99.0")
  /\ init Demo.sibling "logs" false false
     = Ok (mkStats "logs"%string false false ["a.log"%string]
                   [1]%Z [8]%Z [99 # 1] [8]%Z [], []).
Proof. repeat split; vm_compute; reflexivity. Qed.

(** The default path on a directory that holds one log. *)
Lemma init_opens_concatenation_witness :
  listdir Demo.current_dir "." = Some ["run.log"; "README"]%string
  /\ init Demo.current_dir "." false false = Raise (OSError ".run.log")
  /\ exists e, init Demo.current_dir "." false false = Raise e.
Proof.
  assert (H : listdir Demo.current_dir "." = Some ["run.log"; "README"]%string)
    by (vm_compute; reflexivity).
  split; [ exact H | ].
  destruct (init_opens_concatenation Demo.current_dir "." false false _ H)
    as (_ & Hfirst & _ & _ & Hdefault).
  split.
  - apply (Hfirst "run.log"%string [] NotAccessible); vm_compute; reflexivity.
  - apply Hdefault.
    + reflexivity.
    + intros name [ <- | [ <- | [] ] ] Hopen; exfalso; apply Hopen;
        vm_compute; reflexivity.
    + vm_compute. discriminate.
Defined.

Example init_without_sibling_file :
  init Demo.no_sibling "logs" false false = Raise (OSError "logsa.log").
Proof. vm_compute; reflexivity. Qed.


(** ** What [getStats] collects *)

Lemma getitem_nth {A : Type} (l : list A) (i : nat) (x d : A) :
  getitem l i = Ok x -> nth i l d = x /\ (i < length l)%nat.
Proof.
  intros H. apply getitem_Ok in H. split.
  - now apply nth_error_nth.
  - apply nth_error_Some. congruence.
Qed.

Lemma getitem_neg_nth {A : Type} (l : list A) (k : nat) (x d : A) :
  getitem_neg l k = Ok x -> nth (length l - k) l d = x /\ (k <= length l)%nat.
Proof.
  unfold getitem_neg.
  destruct (Nat.leb_spec k (length l)) as [ Hk | Hk ]; [ | discriminate ].
  intros H. apply (getitem_nth _ _ _ d) in H. now split.
Qed.

Lemma getitem_in_range {A : Type} (l : list A) (i : nat) :
  (i < length l)%nat -> exists x, getitem l i = Ok x.
Proof.
  intros H. unfold getitem. destruct (nth_error l i) eqn:E; [ now eexists | ].
  apply nth_error_None in E. lia.
Qed.

Lemma tokens_app gpu m l1 l2 :
  tokens gpu m (l1 ++ l2) = tokens gpu m l1 ++ tokens gpu m l2.
Proof. unfold tokens. now rewrite filter_app, map_app. Qed.

Lemma collected_from_refl (s : RawStats) : collected_from [] s s.
Proof. unfold collected_from, tokens. cbn. now rewrite !app_nil_r. Qed.

Lemma collected_from_trans l1 l2 (s s1 s2 : RawStats) :
  collected_from l1 s s1 -> collected_from l2 s1 s2 ->
  collected_from (l1 ++ l2) s s2.
Proof.
  unfold collected_from.
  intros (Hp & Hg & Hv & Hf & Hc & Ht & Hn & Hq & Hu)
         (Hp' & Hg' & Hv' & Hf' & Hc' & Ht' & Hn' & Hq' & Hu').
  rewrite !tokens_app, !app_assoc, <- Ht, <- Hn, <- Hq, <- Hu, <- Hg.
  repeat split; congruence.
Qed.

(** Case analysis along the chain of conditions of [scan_line]. *)
Ltac by_marker s line :=
  destruct (PyStr.contains "Using" line && PyStr.contains "OpenMP" line);
  [ | destruct (PyStr.contains "Using" line && PyStr.contains "MPI" line);
      [ | destruct (PyStr.contains "Performance:" line);
          [ | destruct (gpuruns s && PyStr.contains "compatible GPU" line);
              [ | destruct (PyStr.contains "Fatal error" line) ] ] ] ].

(** One line: it has the tokens its marker asks for, and the object grows
    by its token. *)
Lemma scan_line_collected (s s' : RawStats) out out' line :
  scan_line (s, out) line = Ok (s', out') ->
  enough_tokens (marker_of (gpuruns s) line) line = true
  /\ collected_from [line] s s'.
Proof.
  unfold scan_line, collected_from, tokens, marker_of. cbn [filter].
  by_marker s line;
    intros H; try bind_inv H; injection H as <- _; cbn -[Nat.leb];
    rewrite ?app_nil_r;
    try (apply (getitem_nth _ _ _ EmptyString) in E; destruct E as [<- E]);
    try (apply (getitem_neg_nth _ _ _ EmptyString) in E; destruct E as [<- E]);
    repeat split; try reflexivity; now apply Nat.leb_le.
Qed.

(** Conversely a line with the tokens its marker asks for is accepted. *)
Lemma scan_line_accepts (s : RawStats) out line :
  enough_tokens (marker_of (gpuruns s) line) line = true ->
  exists s' out', scan_line (s, out) line = Ok (s', out').
Proof.
  unfold scan_line, marker_of.
  by_marker s line;
    cbn [enough_tokens]; intros H; apply Nat.leb_le in H || clear H;
    try (destruct (getitem_in_range (PyStr.split line) 1 H) as (x & ->);
         cbn; now eexists _, _);
    try (unfold getitem_neg;
         destruct (Nat.leb_spec 3 (length (PyStr.split line))); [ | lia ];
         destruct (getitem_in_range (PyStr.split line)
                     (length (PyStr.split line) - 3)) as (x & ->);
         [ lia | cbn; now eexists _, _ ]);
    now eexists _, _.
Qed.

Lemma scan_lines_collected text :
  forall (s s' : RawStats) out out',
    foldM scan_line text (s, out) = Ok (s', out') ->
    Forall (fun l => enough_tokens (marker_of (gpuruns s) l) l = true) text
    /\ collected_from text s s'.
Proof.
  induction text as [ | line text IH ]; intros s s' out out' H; cbn [foldM] in H.
  - injection H as <- _. split; [ constructor | apply collected_from_refl ].
  - bind_inv H. destruct a as [s1 out1].
    apply scan_line_collected in E. destruct E as [He Hc].
    apply IH in H. destruct H as [Hall Hc'].
    assert (Hg : gpuruns s1 = gpuruns s) by apply Hc.
    rewrite Hg in Hall. split; [ now constructor | ].
    exact (collected_from_trans [line] text _ _ _ Hc Hc').
Qed.

Lemma scan_lines_accept text :
  forall (s : RawStats) out,
    Forall (fun l => enough_tokens (marker_of (gpuruns s) l) l = true) text ->
    exists s' out', foldM scan_line text (s, out) = Ok (s', out').
Proof.
  induction text as [ | line text IH ]; intros s out Hall; cbn [foldM].
  - now eexists _, _.
  - inversion Hall as [ | ? ? Hl Hall' ]; subst.
    destruct (scan_line_accepts s out line Hl) as (s1 & out1 & E).
    rewrite E. cbn [bind].
    assert (Hg : gpuruns s1 = gpuruns s)
      by (apply scan_line_collected in E; apply E).
    apply IH. now rewrite Hg.
Qed.

(** A line is refused only for lack of tokens, with IndexError. *)
Lemma scan_line_rejects (s : RawStats) out line e :
  scan_line (s, out) line = Raise e ->
  e = IndexError
  /\ enough_tokens (marker_of (gpuruns s) line) line = false.
Proof.
  intros H. split; [ now apply scan_line_Raise in H | ].
  destruct (enough_tokens (marker_of (gpuruns s) line) line) eqn:E;
    [ | reflexivity ].
  destruct (scan_line_accepts s out line E) as (s' & out' & H'). congruence.
Qed.

Lemma said_app v l1 l2 : said v (l1 ++ l2) = said v l1 ++ said v l2.
Proof. now destruct v. Qed.

Lemma scan_line_says (s s' : RawStats) out out' line :
  scan_line (s, out) line = Ok (s', out') ->
  out' = out ++ said (verbose s)
                     (message_of (marker_of (gpuruns s) line) line).
Proof.
  unfold scan_line, marker_of, trace, said.
  by_marker s line; intros H; try bind_inv H; injection H as _ <-;
    cbn [message_of token_of];
    try (apply (getitem_nth _ _ _ EmptyString) in E; destruct E as [<- E]);
    try (apply (getitem_neg_nth _ _ _ EmptyString) in E; destruct E as [<- E]);
    destruct (verbose s); now rewrite ?app_nil_r.
Qed.

Lemma scan_lines_say text :
  forall (s s' : RawStats) out out',
    foldM scan_line text (s, out) = Ok (s', out') ->
    out' = out ++ said (verbose s)
                       (flat_map (fun l => message_of (marker_of (gpuruns s) l) l)
                                 text).
Proof.
  induction text as [ | line text IH ]; intros s s' out out' H; cbn [foldM] in H.
  - injection H as _ <-. unfold said. destruct (verbose s); now rewrite app_nil_r.
  - bind_inv H. destruct a as [s1 out1].
    pose proof (scan_line_collected _ _ _ _ _ E) as [_ Hc].
    apply scan_line_says in E. apply IH in H.
    assert (Hg : gpuruns s1 = gpuruns s) by apply Hc.
    assert (Hv : verbose s1 = verbose s) by apply Hc.
    rewrite Hg, Hv in H. subst. cbn [flat_map].
    now rewrite said_app, app_assoc.
Qed.


(** One line is treated alike whatever the [verbose] flag and the console
    so far. *)
Lemma scan_line_quiet (a1 a2 : RawStats * console) (line : string) :
  quiet (Ok a1) = quiet (Ok a2) ->
  quiet (scan_line a1 line) = quiet (scan_line a2 line).
Proof.
  destruct a1 as [[p1 g1 v1 F1 P1 T1 Q1 C1 G1] o1],
           a2 as [[p2 g2 v2 F2 P2 T2 Q2 C2 G2] o2].
  cbn. intros [= -> -> -> -> -> -> -> ->].
  unfold scan_line. cbn [gpuruns].
  destruct (PyStr.contains "Using" line && PyStr.contains "OpenMP" line);
    [ | destruct (PyStr.contains "Using" line && PyStr.contains "MPI" line);
        [ | destruct (PyStr.contains "Performance:" line);
            [ | destruct (g2 && PyStr.contains "compatible GPU" line);
                [ | destruct (PyStr.contains "Fatal error" line) ] ] ] ];
    try reflexivity;
    match goal with
    | |- context [ bind ?m _ ] => destruct m; reflexivity
    end.
Qed.

Lemma foldM_quiet {X : Type}
  (b1 b2 : RawStats * console -> X -> result (RawStats * console)) :
  (forall a1 a2 x, quiet (Ok a1) = quiet (Ok a2) ->
                   quiet (b1 a1 x) = quiet (b2 a2 x)) ->
  forall l a1 a2, quiet (Ok a1) = quiet (Ok a2) ->
                  quiet (foldM b1 l a1) = quiet (foldM b2 l a2).
Proof.
  intros Hb. induction l as [ | x l IH ]; intros a1 a2 Ha; cbn [foldM].
  - exact Ha.
  - specialize (Hb a1 a2 x Ha).
    destruct (b1 a1 x) as [ a1' | e1 ], (b2 a2 x) as [ a2' | e2 ];
      cbn [bind]; try (destruct a1'); try (destruct a2'); try discriminate.
    + now apply IH.
    + exact Hb.
Qed.


Section CollectionFacts.

Variable w : World.

Lemma scan_files_collected fl :
  forall (s s' : RawStats) out out',
    foldM (scan_file w) fl (s, out) = Ok (s', out') ->
    exists texts,
      Forall2 (fun f t => readlines w (path s ++ f)%string = Some t) fl texts
      /\ Forall (readable w (path s) (gpuruns s)) fl
      /\ collected_from (concat texts) s s'.
Proof.
  induction fl as [ | file fl IH ]; intros s s' out out' H; cbn [foldM] in H.
  - injection H as <- _. exists [].
    split; [ constructor | split; [ constructor | apply collected_from_refl ] ].
  - bind_inv H. destruct a as [s1 out1]. rewrite scan_file_unfold in E.
    destruct (readlines w (path s ++ file)) as [ text | ] eqn:Er; [ | discriminate ].
    apply scan_lines_collected in E. destruct E as [Hall Hc].
    apply IH in H. destruct H as (texts & Hr & Hread & Hc').
    assert (Hp : path s1 = path s) by apply Hc.
    assert (Hg : gpuruns s1 = gpuruns s) by apply Hc.
    rewrite Hp in Hr. rewrite Hp, Hg in Hread.
    exists (text :: texts). split; [ now constructor | ]. split.
    + constructor; [ now exists text | exact Hread ].
    + exact (collected_from_trans text (concat texts) _ _ _ Hc Hc').
Qed.

Lemma scan_files_accept fl :
  forall (s : RawStats) out,
    Forall (readable w (path s) (gpuruns s)) fl ->
    exists s' out', foldM (scan_file w) fl (s, out) = Ok (s', out').
Proof.
  induction fl as [ | file fl IH ]; intros s out Hall; cbn [foldM].
  - now eexists _, _.
  - inversion Hall as [ | ? ? (text & Hr & Ht) Hall' ]; subst.
    rewrite scan_file_unfold, Hr.
    destruct (scan_lines_accept text s
                (trace s out ("Opening " ++ file ++ "...")%string) Ht)
      as (s1 & out1 & E).
    rewrite E. cbn [bind].
    apply scan_lines_collected in E. destruct E as [_ Hc].
    assert (Hp : path s1 = path s) by apply Hc.
    assert (Hg : gpuruns s1 = gpuruns s) by apply Hc.
    apply IH. now rewrite Hp, Hg.
Qed.

Lemma readable_collect (s : RawStats) :
  (exists s' out, collect w s = Ok (s', out))
  <-> Forall (readable w (path s) (gpuruns s)) (files s).
Proof.
  unfold collect. split.
  - intros (s' & out & H). apply scan_files_collected in H.
    now destruct H as (texts & _ & Hr & _).
  - apply scan_files_accept.
Qed.

(** X1: when [getStats] returns, every listed file was read under the
    name [path + file], and each data sequence has grown by exactly the
    tokens of its marker lines, in file order and then line order;
    [files], [ncpus] and the options are as before, and the three counts
    agree. *)
Theorem getStats_collects_in_order (s s' : RawStats) (out : console) :
  getStats w s = Ok (s', out) ->
  exists texts,
    Forall2 (fun f t => readlines w (path s ++ f)%string = Some t)
            (files s) texts
    /\ collected_from (concat texts) s s'
    /\ length (nprocs s') = length (nthreads s')
    /\ length (nthreads s') = length (performance s').
Proof.
  unfold getStats. intros H. bind_inv H. destruct a as [s1 out1].
  destruct (counts_agree s1) eqn:Ea; [ | discriminate ].
  injection H as <- <-. unfold collect in E.
  apply scan_files_collected in E. destruct E as (texts & Hr & _ & Hc).
  apply counts_agree_iff in Ea. destruct Ea as [E1 E2].
  exists texts.
  split; [ exact Hr | split; [ exact Hc | split; assumption ] ].
Qed.

(** X2: the collection loop of [getStats] runs to its end exactly when
    every listed file opens under [path + file] and every marker line in
    it has the tokens its marker asks for (two, or three for a GPU line
    in GPU mode). *)
Theorem collect_succeeds_iff (s : RawStats) :
  (exists s' out, collect w s = Ok (s', out))
  <-> forall file, In file (files s) ->
        exists text,
          readlines w (path s ++ file)%string = Some text
          /\ forall line, In line text ->
               enough_tokens (marker_of (gpuruns s) line) line = true.
Proof.
  rewrite readable_collect, Forall_forall. unfold readable.
  split; intros H file Hf; destruct (H file Hf) as (text & Hr & Ht);
    exists text; (split; [ exact Hr | ]).
  - now apply Forall_forall.
  - now apply Forall_forall.
Qed.


Lemma scan_file_keeps (s s' : RawStats) out out' file :
  scan_file w (s, out) file = Ok (s', out') ->
  path s' = path s /\ gpuruns s' = gpuruns s /\ verbose s' = verbose s.
Proof.
  rewrite scan_file_unfold.
  destruct (readlines w (path s ++ file)) as [ text | ]; [ | discriminate ].
  intros H. apply scan_lines_collected in H. destruct H as [_ Hc].
  repeat split; apply Hc.
Qed.

(** X3: when [getStats] raises, it is the exception of a listed file
    whose open-and-read under [path + file] fails (the I/O error when it
    does not open, the decoding error when its bytes are no text, the
    value error for a name no file can have), or IndexError for a marker
    line with too few tokens in a listed file that was read, or the
    consistency error after a collection that ran to its end with
    disagreeing counts. *)
Theorem getStats_failure (s : RawStats) (e : exn) :
  getStats w s = Raise e ->
  (exists file err,
      In file (files s)
      /\ open_readlines w (path s ++ file)%string = Fails err
      /\ e = raised err (path s ++ file)%string)
  \/ (exists file text line,
         In file (files s)
         /\ readlines w (path s ++ file)%string = Some text
         /\ In line text
         /\ enough_tokens (marker_of (gpuruns s) line) line = false
         /\ e = IndexError)
  \/ (exists s' out,
         collect w s = Ok (s', out)
         /\ counts_agree s' = false
         /\ e = AssertionError consistency_msg).
Proof.
  unfold getStats. intros H.
  destruct (collect w s) as [ [s1 out1] | e1 ] eqn:Ec; cbn [bind] in H.
  - right; right. destruct (counts_agree s1) eqn:Ea; [ discriminate | ].
    injection H as <-. now exists s1, out1.
  - injection H as ->. unfold collect in Ec.
    apply (foldM_Raise_inv (scan_file w)
             (fun a => path (fst a) = path s /\ gpuruns (fst a) = gpuruns s))
      in Ec.
    + destruct Ec as ([s0 out0] & file & [Hp Hg] & Hf & Hb). cbn in Hp, Hg.
      unfold scan_file in Hb. rewrite Hp in Hb.
      destruct (open_readlines w (path s ++ file)) as [ text | err ] eqn:Er.
      * right; left.
        assert (Hr : readlines w (path s ++ file) = Some text)
          by (unfold readlines; now rewrite Er).
        apply (foldM_Raise_inv scan_line
                 (fun a => gpuruns (fst a) = gpuruns s)) in Hb.
        -- destruct Hb as ([s2 out2] & line & Hg2 & Hl & Hb). cbn in Hg2.
           apply scan_line_rejects in Hb. destruct Hb as [-> Hb].
           rewrite Hg2 in Hb. now exists file, text, line.
        -- intros [a oa] x [a' oa'] Ha Hx. cbn in *.
           apply scan_line_collected in Hx. destruct Hx as [_ Hc].
           transitivity (gpuruns a); [ apply Hc | exact Ha ].
        -- exact Hg.
      * left. injection Hb as <-. now exists file, err.
    + intros [a oa] x [a' oa'] [Ha1 Ha2] Hx. cbn in *.
      apply scan_file_keeps in Hx. destruct Hx as (Hp & Hg & _).
      split; congruence.
    + now split.
Qed.

Lemma scan_files_say fl :
  forall (s s' : RawStats) out out' texts,
    foldM (scan_file w) fl (s, out) = Ok (s', out') ->
    Forall2 (fun f t => readlines w (path s ++ f)%string = Some t) fl texts ->
    out' = out ++ said (verbose s)
                       (concat (map (fun ft => trace_of (gpuruns s) (fst ft) (snd ft))
                                    (combine fl texts))).
Proof.
  induction fl as [ | file fl IH ]; intros s s' out out' texts H Hr;
    cbn [foldM] in H; inversion Hr as [ | ? text ? texts' Hr1 Hr2 ]; subst.
  - injection H as _ <-. unfold said. destruct (verbose s); now rewrite app_nil_r.
  - bind_inv H. destruct a as [s1 out1].
    pose proof (scan_file_keeps _ _ _ _ _ E) as (Hp & Hg & Hv).
    rewrite scan_file_unfold, Hr1 in E. apply scan_lines_say in E.
    rewrite <- Hp in Hr2. apply (IH _ _ _ _ _ H) in Hr2.
    rewrite Hg, Hv in Hr2. subst. cbn [combine map concat fst snd].
    unfold trace_of at 2, trace.
    rewrite (said_app _ (_ :: _)), app_assoc. f_equal.
    unfold said. destruct (verbose s); cbn; now rewrite <- ?app_assoc.
Qed.

(** X4: the console after [getStats]: nothing without [verbose]; with it,
    for every file in turn the line [Opening <file>...] followed by one
    line per OpenMP, MPI, GPU and fatal-error marker line of the file,
    and none for a performance line. *)
Theorem getStats_console (s s' : RawStats) (out : console) :
  getStats w s = Ok (s', out) ->
  exists texts,
    Forall2 (fun f t => readlines w (path s ++ f)%string = Some t)
            (files s) texts
    /\ out = said (verbose s)
               (concat (map (fun ft => trace_of (gpuruns s) (fst ft) (snd ft))
                            (combine (files s) texts))).
Proof.
  unfold getStats. intros H. bind_inv H. destruct a as [s1 out1].
  destruct (counts_agree s1); [ | discriminate ].
  injection H as _ <-. unfold collect in E.
  destruct (scan_files_collected _ _ _ _ _ E) as (texts & Hr & _ & _).
  exists texts. split; [ exact Hr | ].
  exact (scan_files_say _ _ _ _ _ _ E Hr).
Qed.


Lemma scan_file_quiet (a1 a2 : RawStats * console) (file : string) :
  quiet (Ok a1) = quiet (Ok a2) ->
  quiet (scan_file w a1 file) = quiet (scan_file w a2 file).
Proof.
  intros Ha. destruct a1 as [s1 o1], a2 as [s2 o2].
  rewrite !scan_file_unfold.
  assert (Hp : path s1 = path s2).
  { pose proof Ha as Ha'. cbn in Ha'. now injection Ha'. }
  rewrite Hp. destruct (readlines w (path s2 ++ file)); [ | reflexivity ].
  apply (foldM_quiet scan_line scan_line scan_line_quiet).
  exact Ha.
Qed.

Lemma sortStats_quiet (s1 s2 : RawStats) :
  set_verbose s1 false = set_verbose s2 false ->
  match sortStats w s1, sortStats w s2 with
  | Ok r1, Ok r2 => set_verbose r1 false = set_verbose r2 false
  | Raise e1, Raise e2 => e1 = e2
  | _, _ => False
  end.
Proof.
  destruct s1 as [p1 g1 v1 F1 P1 T1 Q1 C1 G1],
           s2 as [p2 g2 v2 F2 P2 T2 Q2 C2 G2].
  cbn. intros [= -> -> -> -> -> -> -> ->].
  unfold sortStats.
  cbn [path gpuruns verbose files nprocs nthreads performance ncpus ngpus].
  repeat match goal with
         | |- context [ bind ?m _ ] => destruct m; cbn [bind]; [ | reflexivity ]
         end.
  destruct g2.
  - repeat match goal with
           | |- context [ bind ?m _ ] => destruct m; cbn [bind]; [ | reflexivity ]
           end.
    reflexivity.
  - reflexivity.
Qed.

(** X5: the [verbose] option changes nothing but the console: with and
    without it construction returns the same sequences, or raises the
    same exception. *)
Theorem init_verbose_irrelevant (p : string) (g v : bool) :
  quiet (init w p g v) = quiet (init w p g false).
Proof.
  rewrite !init_unfold. destruct (listdir w p) as [ names | ]; [ | reflexivity ].
  assert (Hc : quiet (collect w (fresh p g v names))
               = quiet (collect w (fresh p g false names))).
  { unfold collect. cbn [files fresh].
    apply (foldM_quiet (scan_file w) (scan_file w) scan_file_quiet).
    reflexivity. }
  unfold getStats.
  destruct (collect w (fresh p g v names)) as [ [s1 o1] | e1 ],
           (collect w (fresh p g false names)) as [ [s2 o2] | e2 ];
    cbn [bind]; cbn [quiet] in Hc; try discriminate;
    [ | now injection Hc as -> ].
  apply (f_equal (fun r => match r with
                           | Ok x => x
                           | Raise _ => set_verbose s1 false
                           end)) in Hc.
  cbv beta iota in Hc.
  assert (Ha : counts_agree s1 = counts_agree s2).
  { unfold counts_agree.
    replace (nprocs s1) with (nprocs (set_verbose s1 false)) by reflexivity.
    replace (nthreads s1) with (nthreads (set_verbose s1 false)) by reflexivity.
    replace (performance s1) with (performance (set_verbose s1 false))
      by reflexivity.
    now rewrite Hc. }
  rewrite Ha. destruct (counts_agree s2); cbn [bind]; [ | reflexivity ].
  pose proof (sortStats_quiet s1 s2 Hc) as Hs.
  destruct (sortStats w s1), (sortStats w s2); cbn [bind quiet];
    try contradiction; congruence.
Qed.

(** X6: without [verbose] construction prints nothing. *)
Theorem init_silent (p : string) (g : bool) (s : FlatStats) (out : console) :
  init w p g false = Ok (s, out) -> out = [].
Proof.
  rewrite init_unfold. destruct (listdir w p) as [ names | ]; [ | discriminate ].
  intros H. bind_inv H. destruct a as [s1 out1]. bind_inv H.
  injection H as _ <-.
  destruct (getStats_console _ _ _ E) as (texts & _ & Ho).
  exact Ho.
Qed.


End CollectionFacts.


(** ** When [sortStats] returns *)

Lemma conversions_iff {A : Type} (conv : string -> option A) (toks : list string) :
  (exists vals, mapM (convert conv) toks = Ok vals)
  <-> forall t, In t toks -> conv t <> None.
Proof.
  induction toks as [ | t toks IH ]; cbn [mapM].
  - split; [ intros _ t [] | intros _; now exists [] ].
  - unfold convert at 1. split.
    + intros (vals & H) t' [ <- | Ht ].
      * destruct (conv t); [ discriminate | discriminate H ].
      * destruct (conv t); cbn [bind] in H; [ | discriminate ].
        bind_inv H. apply (proj1 IH); [ now eexists | exact Ht ].
    + intros H. destruct (conv t) eqn:E.
      * destruct (proj2 IH) as (vals & Hv); [ intros; apply H; now right | ].
        rewrite Hv. cbn. now eexists.
      * exfalso. apply (H t); [ now left | exact E ].
Qed.

Lemma fancy_index_iff {A : Type} (a : list A) (idx : list nat) :
  (exists r, fancy_index a idx = Ok r)
  <-> Forall (fun i => (i < length a)%nat) idx.
Proof.
  split.
  - intros (r & H). eapply fancy_index_in_range, H.
  - unfold fancy_index. induction 1 as [ | i idx Hi _ (r & IH) ]; cbn [mapM].
    + now exists [].
    + destruct (getitem_in_range a i Hi) as (x & ->). rewrite IH. cbn.
      now eexists.
Qed.

Lemma fancy_index_out_of_range {A : Type} (a : list A) (idx : list nat) :
  ~ Forall (fun i => (i < length a)%nat) idx ->
  fancy_index a idx = Raise IndexError.
Proof.
  intros H. destruct (fancy_index a idx) as [ r | e ] eqn:E.
  - exfalso. apply H, fancy_index_iff. now exists r.
  - now apply fancy_index_Raise in E as ->.
Qed.

(** Reading through a permutation of the positions [0 .. n-1] stays in
    range exactly on arrays of at least [n] elements. *)
Lemma permutation_range (idx : list nat) (n m : nat) :
  Permutation idx (seq 0 n) ->
  Forall (fun i => (i < m)%nat) idx <-> (n <= m)%nat.
Proof.
  intros Hperm. split; [ now apply permutation_in_range | ].
  intros Hnm. apply Forall_forall. intros i Hi.
  apply (Permutation_in _ Hperm), in_seq in Hi. lia.
Qed.

Lemma cpu_products_total (procs threads : list Z) :
  (length procs <= length threads)%nat ->
  exists cpus, cpu_products procs threads = Ok cpus.
Proof.
  intros Hlen. unfold cpu_products.
  assert (H : Forall (fun i => (i < length procs)%nat) (seq 0 (length procs))).
  { apply Forall_forall. intros i Hi. apply in_seq in Hi. lia. }
  induction H as [ | i l Hi _ (cpus & IH) ]; cbn [mapM].
  - now exists [].
  - destruct (getitem_in_range procs i Hi) as (p & ->).
    destruct (getitem_in_range threads i) as (t & ->); [ lia | ].
    cbn [bind]. rewrite IH. cbn. now eexists.
Qed.

(** Reading two arrays through a permutation of the positions of the
    second gives the pairs of the arrays in another order. *)
Lemma selection_permutes {A : Type} (a a' : list A) (v v' : list Q)
  (idx : list nat) (d : A) :
  fancy_index a idx = Ok a' -> fancy_index v idx = Ok v' ->
  Permutation idx (seq 0 (length v)) ->
  Permutation (combine a' v') (combine a v).
Proof.
  intros Ha Hv Hperm.
  pose proof (permutation_in_range _ _ _ Hperm (fancy_index_in_range _ _ _ Ha))
    as Hlen.
  rewrite (fancy_index_map _ _ _ d Ha), (fancy_index_map _ _ _ 0 Hv).
  rewrite combine_map_same, (combine_by_position a v d 0 Hlen).
  now apply Permutation_map.
Qed.

Section SortFacts.

Variable w : World.

(** X7: with an argsort that returns a permutation of the positions,
    [sortStats] returns exactly when every token is accepted by [int] or
    [float] and there are at least as many [files], [nprocs] and
    [nthreads] entries (and, in GPU mode, [ngpus] entries) as
    [performance] entries. *)
Theorem sortStats_succeeds_iff (s : RawStats) :
  (forall v, Permutation (np_argsort w v) (seq 0 (length v))) ->
  (exists s', sortStats w s = Ok s')
  <-> (forall t, In t (nprocs s) -> py_int w t <> None)
      /\ (forall t, In t (nthreads s) -> py_int w t <> None)
      /\ (forall t, In t (performance s) -> py_float w t <> None)
      /\ (length (performance s) <= length (files s))%nat
      /\ (length (performance s) <= length (nprocs s))%nat
      /\ (length (performance s) <= length (nthreads s))%nat
      /\ (gpuruns s = true ->
          (forall t, In t (ngpus s) -> py_int w t <> None)
          /\ (length (performance s) <= length (ngpus s))%nat).
Proof.
  intros Hperm. split.
  - intros (s' & H).
    destruct (sortStats_inv w _ _ H)
      as (procs & threads & perfs & Hcp & Hct & Hcq & Hf & Hp & Ht & _ & _ & _ & Hg).
    specialize (Hperm perfs).
    rewrite <- (mapM_length _ _ _ Hcp), <- (mapM_length _ _ _ Hct),
      <- (mapM_length _ _ _ Hcq).
    repeat split.
    + apply conversions_iff. now exists procs.
    + apply conversions_iff. now exists threads.
    + apply conversions_iff. now exists perfs.
    + eapply permutation_in_range, fancy_index_in_range; eassumption.
    + eapply permutation_in_range, fancy_index_in_range; eassumption.
    + eapply permutation_in_range, fancy_index_in_range; eassumption.
    + rewrite H0 in Hg. destruct Hg as (gpus & Hcg & _).
      apply conversions_iff. now exists gpus.
    + rewrite H0 in Hg. destruct Hg as (gpus & Hcg & Hfg).
      rewrite <- (mapM_length _ _ _ Hcg).
      eapply permutation_in_range, fancy_index_in_range; eassumption.
  - intros (Hcp & Hct & Hcq & Hf & Hp & Ht & Hg).
    apply conversions_iff in Hcp, Hct, Hcq.
    destruct Hcp as (procs & Hcp), Hct as (threads & Hct), Hcq as (perfs & Hcq).
    specialize (Hperm perfs).
    rewrite <- (mapM_length _ _ _ Hcq) in *.
    rewrite <- (mapM_length _ _ _ Hcp) in Hp.
    rewrite <- (mapM_length _ _ _ Hct) in Ht.
    destruct (proj2 (fancy_index_iff (files s) _)
                (proj2 (permutation_range _ _ _ Hperm) Hf)) as (files' & Hf').
    destruct (proj2 (fancy_index_iff procs _)
                (proj2 (permutation_range _ _ _ Hperm) Hp)) as (procs' & Hp').
    destruct (proj2 (fancy_index_iff threads _)
                (proj2 (permutation_range _ _ _ Hperm) Ht)) as (threads' & Ht').
    destruct (proj2 (fancy_index_iff perfs _)
                (proj2 (permutation_range _ _ _ Hperm) (Nat.le_refl _)))
      as (perfs' & Hq').
    destruct (cpu_products_total procs' threads') as (cpus & Hc).
    { rewrite (fancy_index_length _ _ _ Hp'), (fancy_index_length _ _ _ Ht').
      lia. }
    unfold sortStats. rewrite Hcp, Hct, Hcq. cbn [bind].
    rewrite Hf', Hp', Ht', Hq'. cbn [bind]. rewrite Hc. cbn [bind].
    destruct (gpuruns s); [ | now eexists ].
    destruct (Hg eq_refl) as [Hcg Hlg]. apply conversions_iff in Hcg.
    destruct Hcg as (gpus & Hcg). rewrite <- (mapM_length _ _ _ Hcg) in Hlg.
    destruct (proj2 (fancy_index_iff gpus _)
                (proj2 (permutation_range _ _ _ Hperm) Hlg)) as (gpus' & Hg').
    rewrite Hcg. cbn [bind]. rewrite Hg'. cbn [bind]. now eexists.
Qed.

(** X8: when every token converts and argsort returns a permutation of
    the positions, [sortStats] raises IndexError if the listing has fewer
    names than there are performance entries (a log that holds more than
    one run); and in GPU mode, with enough names and counts, it raises
    IndexError if there are fewer GPU entries than performance entries. *)
Theorem sortStats_too_few (s : RawStats) :
  (forall v, Permutation (np_argsort w v) (seq 0 (length v))) ->
  (forall t, In t (nprocs s) -> py_int w t <> None) ->
  (forall t, In t (nthreads s) -> py_int w t <> None) ->
  (forall t, In t (performance s) -> py_float w t <> None) ->
  ((length (files s) < length (performance s))%nat ->
   sortStats w s = Raise IndexError)
  /\ ((length (performance s) <= length (files s))%nat ->
      length (nprocs s) = length (performance s) ->
      length (nthreads s) = length (performance s) ->
      gpuruns s = true ->
      (forall t, In t (ngpus s) -> py_int w t <> None) ->
      (length (ngpus s) < length (performance s))%nat ->
      sortStats w s = Raise IndexError).
Proof.
  intros Hperm Hcp Hct Hcq.
  apply conversions_iff in Hcp, Hct, Hcq.
  destruct Hcp as (procs & Hcp), Hct as (threads & Hct), Hcq as (perfs & Hcq).
  specialize (Hperm perfs).
  rewrite <- (mapM_length _ _ _ Hcq).
  split.
  - intros Hf. unfold sortStats. rewrite Hcp, Hct, Hcq. cbn [bind].
    rewrite fancy_index_out_of_range; [ reflexivity | ].
    rewrite (permutation_range _ _ _ Hperm). lia.
  - intros Hf Hp Ht G Hcg Hg.
    rewrite <- (mapM_length _ _ _ Hcp) in Hp.
    rewrite <- (mapM_length _ _ _ Hct) in Ht.
    apply conversions_iff in Hcg. destruct Hcg as (gpus & Hcg).
    rewrite <- (mapM_length _ _ _ Hcg) in Hg.
    destruct (proj2 (fancy_index_iff (files s) _)
                (proj2 (permutation_range _ _ _ Hperm) Hf)) as (files' & Hf').
    destruct (proj2 (fancy_index_iff procs (np_argsort w perfs)))
      as (procs' & Hp').
    { apply (permutation_range _ _ _ Hperm). lia. }
    destruct (proj2 (fancy_index_iff threads (np_argsort w perfs)))
      as (threads' & Ht').
    { apply (permutation_range _ _ _ Hperm). lia. }
    destruct (proj2 (fancy_index_iff perfs (np_argsort w perfs)))
      as (perfs' & Hq').
    { apply (permutation_range _ _ _ Hperm). lia. }
    destruct (cpu_products_total procs' threads') as (cpus & Hc).
    { rewrite (fancy_index_length _ _ _ Hp'), (fancy_index_length _ _ _ Ht').
      lia. }
    unfold sortStats. rewrite Hcp, Hct, Hcq. cbn [bind].
    rewrite Hf', Hp', Ht', Hq'. cbn [bind]. rewrite Hc. cbn [bind].
    rewrite G, Hcg. cbn [bind].
    rewrite fancy_index_out_of_range; [ reflexivity | ].
    rewrite (permutation_range _ _ _ Hperm). lia.
Qed.

(** X9: sorting loses and invents no record: the records after
    [sortStats] are those of the converted sequences before it, in another
    order (with more names than performance entries, those of the first
    names of the listing). *)
Theorem sortStats_permutes (s : RawStats) (s' : FlatStats)
  (procs threads : list Z) (perfs : list Q) :
  sortStats w s = Ok s' ->
  mapM (convert (py_int w)) (nprocs s) = Ok procs ->
  mapM (convert (py_int w)) (nthreads s) = Ok threads ->
  mapM (convert (py_float w)) (performance s) = Ok perfs ->
  Permutation (np_argsort w perfs) (seq 0 (length perfs)) ->
  Permutation (rows (files s') (nprocs s') (nthreads s') (performance s'))
              (rows (files s) procs threads perfs)
  /\ (gpuruns s = true ->
      forall gpus,
        mapM (convert (py_int w)) (ngpus s) = Ok gpus ->
        Permutation (combine (ngpus s') (performance s'))
                    (combine gpus perfs)).
Proof.
  intros H Hcp Hct Hcq Hperm.
  destruct (sortStats_inv w _ _ H)
    as (procs0 & threads0 & perfs0 & Hcp0 & Hct0 & Hcq0
        & Hf & Hp & Ht & Hq & _ & _ & Hg).
  rewrite Hcp in Hcp0. rewrite Hct in Hct0. rewrite Hcq in Hcq0.
  injection Hcp0 as <-. injection Hct0 as <-. injection Hcq0 as <-.
  split.
  - unfold rows.
    apply (selection_permutes _ _ _ _ (np_argsort w perfs)
             (EmptyString, 0%Z, 0%Z)); try assumption.
    repeat apply fancy_index_combine; assumption.
  - intros G gpus Hcg. rewrite G in Hg. destruct Hg as (gpus0 & Hcg0 & Hfg).
    rewrite Hcg in Hcg0. injection Hcg0 as <-.
    now apply (selection_permutes _ _ _ _ (np_argsort w perfs) 0%Z).
Qed.


End SortFacts.


(** ** More on the partition *)

Lemma pick_In {A : Type} (omp : Z) (keys : list Z) (vals : list A) (x : A) :
  In x (pick omp keys vals) -> In x vals.
Proof.
  unfold pick. rewrite in_map_iff. intros ([k y] & <- & H).
  apply filter_In in H. destruct H as [H _]. now apply in_combine_r in H.
Qed.

Lemma pick_length {A : Type} (omp : Z) (keys : list Z) :
  forall vals : list A,
    length vals = length keys ->
    length (pick omp keys vals) = length (pick omp keys keys).
Proof.
  induction keys as [ | k keys IH ]; intros [ | x vals ] H; try discriminate.
  - reflexivity.
  - rewrite !pick_cons. destruct (k =? omp)%Z; cbn [length];
      rewrite (IH vals); auto.
Qed.

Lemma pick_nonempty (omp : Z) (keys : list Z) :
  In omp keys -> pick omp keys keys <> [].
Proof.
  induction keys as [ | k keys IH ]; intros H; [ destruct H | ].
  rewrite pick_cons. destruct (Z.eqb_spec k omp) as [ E | Hne ];
    [ discriminate | ].
  destruct H as [ E | H ]; [ contradiction | now apply IH ].
Qed.

Lemma pick_sorted {A : Type} (R : A -> A -> Prop) (omp : Z) (keys : list Z) :
  forall vals : list A,
    length vals = length keys ->
    StronglySorted R vals -> StronglySorted R (pick omp keys vals).
Proof.
  induction keys as [ | k keys IH ]; intros [ | x vals ] Hlen Hs;
    try discriminate.
  - constructor.
  - rewrite pick_cons. apply StronglySorted_inv in Hs. destruct Hs as [Hs Hx].
    assert (Htl : StronglySorted R (pick omp keys vals)) by (apply IH; auto).
    destruct (k =? omp)%Z; [ | exact Htl ].
    constructor; [ exact Htl | ].
    rewrite Forall_forall in *. intros y Hy. apply Hx. eapply pick_In, Hy.
Qed.

(** The buckets of a duplicate-free [omps] that covers the keys hold the
    values of every record once. *)
Lemma pick_permutes {A : Type} (omps keys : list Z) :
  NoDup omps -> (forall x, In x keys -> In x omps) ->
  forall vals : list A,
    length vals = length keys ->
    Permutation (concat (map (fun omp => pick omp keys vals) omps)) vals.
Proof.
  intros Hnd. induction keys as [ | k keys IH ]; intros Hcover [ | x vals ] Hlen;
    try discriminate.
  - clear. induction omps as [ | o omps IHo ]; cbn; [ constructor | exact IHo ].
  - assert (Hk : In k omps) by (apply Hcover; now left).
    destruct (in_split _ _ Hk) as (l1 & l2 & ->).
    apply NoDup_remove_2 in Hnd as Hnotin.
    assert (Hother : forall l, ~ In k l ->
               map (fun omp => pick omp (k :: keys) (x :: vals)) l
               = map (fun omp => pick omp keys vals) l).
    { intros l Hl. apply map_ext_in. intros omp Ho. rewrite pick_cons.
      destruct (Z.eqb_spec k omp) as [ -> | _ ]; [ contradiction | reflexivity ]. }
    rewrite map_app, concat_app. cbn [map concat].
    rewrite pick_cons, Z.eqb_refl.
    rewrite (Hother l1), (Hother l2)
      by (intros C; apply Hnotin, in_or_app; auto).
    cbn [app]. rewrite <- Permutation_middle. constructor.
    specialize (IH (fun y Hy => Hcover y (or_intror Hy)) vals
                   ltac:(cbn in Hlen; lia)).
    rewrite map_app, concat_app in IH. exact IH.
Qed.

(** A duplicate-free list that holds nothing but the values of a list of
    equal values has at most one element. *)
Lemma set_of_uniform (l omps : list Z) :
  set_iter_spec l omps -> uniform l -> (length omps <= 1)%nat.
Proof.
  intros [Hnd Hin] Hu. destruct omps as [ | a [ | b omps ] ]; cbn; try lia.
  exfalso. apply NoDup_cons_iff in Hnd. destruct Hnd as [Hnotin _].
  apply Hnotin. left. apply Hu; apply Hin; cbn; auto.
Qed.

Lemma uniform_of_set (l omps : list Z) :
  set_iter_spec l omps -> (length omps <= 1)%nat -> uniform l.
Proof.
  intros [_ Hin] Hlen x y Hx Hy. apply Hin in Hx, Hy.
  destruct omps as [ | a [ | b omps ] ]; cbn in *; try lia;
    intuition congruence.
Qed.


Section PartitionFacts.

Variable w : World.

Lemma init_well_formed p g v (s : FlatStats) out :
  init w p g v = Ok (s, out) -> well_formed s.
Proof.
  intros H. destruct (init_inv w _ _ _ _ _ H) as (names & raw & _ & _ & Hs).
  destruct (sortStats_lengths w _ _ Hs) as (n & Hf & Hp & Ht & Hq & Hc & Hg).
  unfold well_formed. repeat split; try congruence.
  intros G. rewrite (Hg G). congruence.
Qed.

(** What a call on a well-formed flat object returns. *)
Lemma subdivideomp_well_formed (s : FlatStats) :
  well_formed s -> nthreads s <> [] ->
  subdivideomp w (Flat s)
  = if (1 <? length (set_iter w (nthreads s)))%nat
    then Ok (Nested (subdivided (set_iter w (nthreads s)) s),
             [subdividing_msg (length (set_iter w (nthreads s)))])
    else Ok (Flat s, [subdividing_msg (length (set_iter w (nthreads s)));
                      no_subdivision_msg]).
Proof.
  intros (HF & HP & HQ & HC & HG) Hne.
  destruct (1 <? length (set_iter w (nthreads s)))%nat eqn:E.
  - apply subdivideomp_flat; try assumption. now apply Nat.ltb_lt.
  - unfold subdivideomp. destruct (nthreads s) as [ | t0 ts ] eqn:ET;
      [ contradiction | ].
    cbv beta iota. now rewrite E.
Qed.

Lemma subdivideomp_nested_inv (s : FlatStats) (s' : NestedStats) out :
  well_formed s ->
  subdivideomp w (Flat s) = Ok (Nested s', out) ->
  s' = subdivided (set_iter w (nthreads s)) s
  /\ (1 < length (set_iter w (nthreads s)))%nat.
Proof.
  intros Hwf H.
  assert (Hne : nthreads s <> []).
  { intros E. unfold subdivideomp in H. rewrite E in H. discriminate. }
  rewrite (subdivideomp_well_formed s Hwf Hne) in H.
  destruct (1 <? length (set_iter w (nthreads s)))%nat eqn:E;
    [ | discriminate ].
  injection H as <- _. split; [ reflexivity | now apply Nat.ltb_lt ].
Qed.

(** X10: on an object that construction returned with at least one
    record, [subdivideomp] raises nothing: it returns the partition along
    the set's iteration order when that has more than one element, and
    the object as it is otherwise. *)
Theorem subdivideomp_after_init p g v (s : FlatStats) out :
  init w p g v = Ok (s, out) ->
  nthreads s <> [] ->
  exists out',
    subdivideomp w (Flat s)
    = Ok (if (1 <? length (set_iter w (nthreads s)))%nat
          then Nested (subdivided (set_iter w (nthreads s)) s)
          else Flat s, out').
Proof.
  intros H Hne. apply init_well_formed in H.
  rewrite (subdivideomp_well_formed s H Hne).
  destruct (1 <? length (set_iter w (nthreads s)))%nat; now eexists.
Qed.

(** X11: a flat object with records is left flat, with the two notices
    of a single set, exactly when all its thread counts are the same. *)
Theorem subdivideomp_unchanged_iff_uniform (s : FlatStats) :
  set_iter_spec (nthreads s) (set_iter w (nthreads s)) ->
  nthreads s <> [] ->
  subdivideomp w (Flat s)
  = Ok (Flat s, [subdividing_msg 1; no_subdivision_msg])
  <-> uniform (nthreads s).
Proof.
  intros Hset Hne. unfold subdivideomp.
  destruct (nthreads s) as [ | t0 ts ] eqn:ET; [ contradiction | ].
  rewrite <- ET in *.
  destruct (Nat.ltb_spec 1 (length (set_iter w (nthreads s)))) as [ Hlt | Hle ].
  - split.
    + intros H. repeat bind_inv H. discriminate.
    + intros Hu. pose proof (set_of_uniform _ _ Hset Hu). lia.
  - split; [ intros _; now apply (uniform_of_set _ _ Hset) | intros _ ].
    assert (Hlen : length (set_iter w (nthreads s)) = 1%nat).
    { destruct Hset as [_ Hin].
      assert (Ht0 : In t0 (set_iter w (nthreads s)))
        by (apply Hin; rewrite ET; now left).
      destruct (set_iter w (nthreads s)); [ destruct Ht0 | cbn in *; lia ]. }
    now rewrite Hlen.
Qed.

(** X12: after a subdivision of a well-formed object all sequences have
    the same shape (bucket by bucket the same length), and the buckets of
    [nthreads] follow the set's iteration order: bucket [b] is not empty
    and holds the [b]-th thread count only. *)
Theorem subdivideomp_bucket_shapes (s : FlatStats) (s' : NestedStats) out :
  well_formed s ->
  set_iter_spec (nthreads s) (set_iter w (nthreads s)) ->
  subdivideomp w (Flat s) = Ok (Nested s', out) ->
  map (@length string) (files s') = map (@length Z) (nthreads s')
  /\ map (@length Z) (nprocs s') = map (@length Z) (nthreads s')
  /\ map (@length Q) (performance s') = map (@length Z) (nthreads s')
  /\ map (@length Z) (ncpus s') = map (@length Z) (nthreads s')
  /\ (gpuruns s = true ->
      map (@length Z) (ngpus s') = map (@length Z) (nthreads s'))
  /\ Forall2 (fun omp b => b <> [] /\ forall x, In x b -> x = omp)
             (set_iter w (nthreads s)) (nthreads s').
Proof.
  intros Hwf [_ Hin] H.
  destruct (subdivideomp_nested_inv s s' out Hwf H) as [-> _].
  destruct Hwf as (HF & HP & HQ & HC & HG).
  unfold subdivided.
  cbn [files nprocs nthreads performance ncpus ngpus gpuruns].
  rewrite !map_map.
  repeat split; try (apply map_ext; intros omp; now apply pick_length).
  - intros G. rewrite G, map_map. apply map_ext. intros omp.
    apply pick_length; auto.
  - assert (Hall : forall omps,
               (forall x, In x omps -> In x (nthreads s)) ->
               Forall2 (fun omp b => b <> [] /\ forall x, In x b -> x = omp)
                 omps (map (fun omp => pick omp (nthreads s) (nthreads s)) omps)).
    { induction omps as [ | omp omps IH ]; intros Hs; cbn; constructor.
      - split; [ apply pick_nonempty, Hs; now left | ].
        intros x. apply pick_keys.
      - apply IH. intros x Hx. apply Hs. now right. }
    apply Hall. intros x. apply Hin.
Qed.

(** X13: the buckets of every sequence hold together exactly the entries
    of the flat sequence: none lost, none twice. *)
Theorem subdivideomp_permutes (s : FlatStats) (s' : NestedStats) out :
  well_formed s ->
  set_iter_spec (nthreads s) (set_iter w (nthreads s)) ->
  subdivideomp w (Flat s) = Ok (Nested s', out) ->
  Permutation (concat (files s')) (files s)
  /\ Permutation (concat (nprocs s')) (nprocs s)
  /\ Permutation (concat (nthreads s')) (nthreads s)
  /\ Permutation (concat (performance s')) (performance s)
  /\ Permutation (concat (ncpus s')) (ncpus s)
  /\ (gpuruns s = true -> Permutation (concat (ngpus s')) (ngpus s)).
Proof.
  intros Hwf [Hnd Hin] H.
  destruct (subdivideomp_nested_inv s s' out Hwf H) as [-> _].
  destruct Hwf as (HF & HP & HQ & HC & HG).
  assert (Hcover : forall x, In x (nthreads s) -> In x (set_iter w (nthreads s)))
    by (intros x; apply Hin).
  unfold subdivided.
  cbn [files nprocs nthreads performance ncpus ngpus gpuruns].
  repeat split; try (apply pick_permutes; auto).
  intros G. rewrite G. apply pick_permutes; auto.
Qed.

(** X14: a subdivision keeps the order of the flat sequences inside every
    bucket: with [performance] ascending before, it is ascending in each
    bucket after. *)
Theorem subdivideomp_keeps_order (s : FlatStats) (s' : NestedStats) out :
  well_formed s ->
  subdivideomp w (Flat s) = Ok (Nested s', out) ->
  Sorted Qle (performance s) ->
  Forall (Sorted Qle) (performance s').
Proof.
  intros Hwf H Hs.
  destruct (subdivideomp_nested_inv s s' out Hwf H) as [-> _].
  destruct Hwf as (_ & _ & HQ & _).
  unfold subdivided. cbn [performance].
  apply Forall_forall. intros b Hb. apply in_map_iff in Hb.
  destruct Hb as (omp & <- & _).
  apply StronglySorted_Sorted, pick_sorted; [ exact HQ | ].
  apply Sorted_StronglySorted; [ | exact Hs ].
  intros a b c. apply Qle_trans.
Qed.

(** X15: a subdivision keeps [ncpus] consistent: if every [ncpus[i]] is
    the product of [nprocs[i]] and [nthreads[i]] before, then every
    [ncpus[b][j]] is the product of [nprocs[b][j]] and [nthreads[b][j]]
    after. *)
Theorem subdivideomp_keeps_products (s : FlatStats) (s' : NestedStats) out :
  well_formed s ->
  subdivideomp w (Flat s) = Ok (Nested s', out) ->
  cpus_consistent s ->
  forall b j p t,
    at2 (nprocs s') b j = Some p -> at2 (nthreads s') b j = Some t ->
    at2 (ncpus s') b j = Some (np_mul p t).
Proof.
  intros Hwf H Hcpu b j p t.
  destruct (subdivideomp_nested_inv s s' out Hwf H) as [-> _].
  destruct Hwf as (_ & HP & _ & HC & _).
  unfold subdivided. cbn [nprocs nthreads ncpus]. rewrite !at2_map.
  destruct (nth_error (set_iter w (nthreads s)) b) as [ omp | ];
    [ | discriminate ].
  intros Hp Ht.
  destruct (Forall2_nth_error_right _ _ _ _ _
              (pick_at_positions omp (nthreads s) (nthreads s) eq_refl) Ht)
    as (i & Hi & Hti).
  rewrite (pick_at omp (nthreads s) (nprocs s) j i) in Hp by assumption.
  rewrite (pick_at omp (nthreads s) (ncpus s) j i) by assumption.
  now apply Hcpu.
Qed.

(** X16: the summary string counts the entries of [files]: after
    construction that is the number of performance entries found, and
    after a subdivision the number of buckets. *)
Theorem str_counts p g v (s : FlatStats) out :
  init w p g v = Ok (s, out) ->
  __str__ (Flat s) = summary (length (performance s))
  /\ forall s' out',
       subdivideomp w (Flat s) = Ok (Nested s', out') ->
       __str__ (Nested s') = summary (length (set_iter w (nthreads s))).
Proof.
  intros H. apply init_well_formed in H. split.
  - unfold __str__. cbn. destruct H as (HF & _ & HQ & _). congruence.
  - intros s' out' Hs.
    destruct (subdivideomp_nested_inv s s' out' H Hs) as [-> _].
    unfold __str__, subdivided. cbn. now rewrite length_map.
Qed.

End PartitionFacts.


Section ConstructionExtras.

Variable w : World.

Lemma conversions_refused {A : Type} (conv : string -> option A) toks tok :
  mapM (convert conv) toks = Raise (ValueError tok) ->
  In tok toks /\ conv tok = None.
Proof.
  intros H. apply mapM_Raise in H. destruct H as (t & Ht & H).
  unfold convert in H. destruct (conv t) eqn:E; [ discriminate | ].
  injection H as <-. now split.
Qed.

Lemma not_value_error_index {A : Type} (a : list A) idx tok :
  fancy_index a idx <> Raise (ValueError tok).
Proof. intros H. apply fancy_index_Raise in H. discriminate. Qed.

(** X17: [sortStats] raises ValueError only with a token of [nprocs],
    [nthreads] or (GPU mode) [ngpus] that [int] refuses, or a token of
    [performance] that [float] refuses. *)
Theorem sortStats_value_error (s : RawStats) (tok : string) :
  sortStats w s = Raise (ValueError tok) ->
  (In tok (nprocs s) /\ py_int w tok = None)
  \/ (In tok (nthreads s) /\ py_int w tok = None)
  \/ (In tok (performance s) /\ py_float w tok = None)
  \/ (gpuruns s = true /\ In tok (ngpus s) /\ py_int w tok = None).
Proof.
  unfold sortStats. intros H.
  destruct (mapM (convert (py_int w)) (nprocs s)) as [ procs | e ] eqn:E1;
    cbn [bind] in H.
  2:{ injection H as ->. left. now apply conversions_refused. }
  destruct (mapM (convert (py_int w)) (nthreads s)) as [ threads | e ] eqn:E2;
    cbn [bind] in H.
  2:{ injection H as ->. right; left. now apply conversions_refused. }
  destruct (mapM (convert (py_float w)) (performance s)) as [ perfs | e ] eqn:E3;
    cbn [bind] in H.
  2:{ injection H as ->. right; right; left. now apply conversions_refused. }
  repeat match type of H with
         | bind ?m _ = Raise _ =>
             let E := fresh "E" in
             destruct m eqn:E; cbn [bind] in H;
             [ | injection H as ->;
                 first [ now apply not_value_error_index in E
                       | apply cpu_products_Raise in E; discriminate ] ]
         end.
  destruct (gpuruns s) eqn:G; [ | discriminate ].
  destruct (mapM (convert (py_int w)) (ngpus s)) as [ gpus | e ] eqn:Egpu;
    cbn [bind] in H.
  2:{ injection H as ->. right; right; right.
      split; [ reflexivity | now apply conversions_refused ]. }
  destruct (fancy_index gpus (np_argsort w perfs)) eqn:Esel; cbn [bind] in H;
    [ discriminate | ].
  injection H as ->. now apply not_value_error_index in Esel.
Qed.

(** X18: the object construction returns carries the options it was
    given, and its [files] are names of the directory listing that
    contain [.log]. *)
Theorem init_files_listed p g v (s : FlatStats) out :
  init w p g v = Ok (s, out) ->
  path s = p /\ gpuruns s = g /\ verbose s = v
  /\ exists names,
       listdir w p = Some names
       /\ forall f, In f (files s) ->
            In f names /\ PyStr.contains ".log" f = true.
Proof.
  intros H. destruct (init_inv w _ _ _ _ _ H) as (names & raw & Hl & Hg & Hs).
  unfold getStats in Hg. bind_inv Hg. destruct a as [raw' out'].
  destruct (counts_agree raw'); [ | discriminate ]. injection Hg as -> ->.
  unfold collect in E. apply scan_files_collected in E.
  destruct E as (_ & _ & _ & Hp & Hgr & Hv & Hf & _).
  cbn [path gpuruns verbose files fresh] in Hp, Hgr, Hv, Hf.
  assert (Hcfg : path s = path raw /\ gpuruns s = gpuruns raw
                 /\ verbose s = verbose raw).
  { clear - Hs. unfold sortStats in Hs. repeat bind_inv Hs.
    destruct (gpuruns raw); repeat bind_inv Hs; now injection Hs as <-. }
  destruct Hcfg as (Hp' & Hg' & Hv').
  repeat split; try congruence.
  exists names. split; [ exact Hl | ]. intros f Hin.
  destruct (sortStats_inv w _ _ Hs)
    as (_ & _ & perfs & _ & _ & _ & Hfi & _).
  apply fancy_index_Forall2 in Hfi. rewrite Hf in Hfi.
  apply In_nth_error in Hin. destruct Hin as (k & Hk).
  destruct (Forall2_nth_error_right _ _ _ _ _ Hfi Hk) as (i & _ & Hi).
  apply nth_error_In, filter_In in Hi. exact Hi.
Qed.

End ConstructionExtras.


(** ** The further properties on the concrete directories *)

Lemma getStats_collects_in_order_witness :
  getStats Demo.three_runs Demo.fresh_three = Ok (Demo.collected_three, [])
  /\ exists texts,
       Forall2 (fun f t => readlines Demo.three_runs
                             (path Demo.fresh_three ++ f)%string = Some t)
               (files Demo.fresh_three) texts
       /\ collected_from (concat texts) Demo.fresh_three Demo.collected_three
       /\ length (nprocs Demo.collected_three)
          = length (nthreads Demo.collected_three)
       /\ length (nthreads Demo.collected_three)
          = length (performance Demo.collected_three).
Proof.
  split; [ vm_compute; reflexivity | ].
  apply (getStats_collects_in_order Demo.three_runs Demo.fresh_three
           Demo.collected_three []).
  vm_compute; reflexivity.
Defined.

Lemma collect_succeeds_iff_witness :
  exists s' out, collect Demo.three_runs Demo.fresh_three = Ok (s', out).
Proof.
  apply (proj2 (collect_succeeds_iff Demo.three_runs Demo.fresh_three)).
  intros file [ <- | [ <- | [ <- | [] ] ] ]; eexists;
    (split; [ vm_compute; reflexivity | ]);
    intros line Hl; repeat (destruct Hl as [ <- | Hl ]; [ reflexivity | ]);
    destruct Hl.
Defined.

Lemma getStats_failure_witness :
  getStats Demo.unfinished (fresh "logs/" true false ["a.log"; "b.log"]%string)
  = Raise (AssertionError consistency_msg)
  /\ exists s' out,
       collect Demo.unfinished
         (fresh "logs/" true false ["a.log"; "b.log"]%string) = Ok (s', out)
       /\ counts_agree s' = false.
Proof.
  assert (H : getStats Demo.unfinished
                (fresh "logs/" true false ["a.log"; "b.log"]%string)
              = Raise (AssertionError consistency_msg))
    by (vm_compute; reflexivity).
  split; [ exact H | ].
  destruct (getStats_failure Demo.unfinished _ _ H)
    as [ (f & err & _ & _ & E) | [ (f & t & l & _ & _ & _ & _ & E)
                                 | (s' & out & Hc & Ha & _) ] ];
    [ destruct err; discriminate E | discriminate E | now exists s', out ].
Defined.

(** A listed file that opens and does not decode ends collection with
    the decoding error, after the files before it were read. *)
Example getStats_undecodable :
  open_readlines Demo.undecodable "logs/B.log" = Fails NotDecodable
  /\ getStats Demo.undecodable Demo.fresh_three
     = Raise (UnicodeDecodeError "logs/B.log")
  /\ init Demo.undecodable "logs/" false false
     = Raise (UnicodeDecodeError "logs/B.log").
Proof. repeat split; vm_compute; reflexivity. Qed.

Lemma getStats_console_witness :
  getStats Demo.three_runs Demo.fresh_three_verbose
  = Ok (set_verbose Demo.collected_three true, Demo.console_three)
  /\ exists texts,
       Forall2 (fun f t => readlines Demo.three_runs
                             (path Demo.fresh_three_verbose ++ f)%string
                           = Some t)
               (files Demo.fresh_three_verbose) texts
       /\ Demo.console_three
          = said (verbose Demo.fresh_three_verbose)
              (concat (map (fun ft => trace_of (gpuruns Demo.fresh_three_verbose)
                                               (fst ft) (snd ft))
                           (combine (files Demo.fresh_three_verbose) texts))).
Proof.
  split; [ vm_compute; reflexivity | ].
  apply (getStats_console Demo.three_runs Demo.fresh_three_verbose
           (set_verbose Demo.collected_three true)).
  vm_compute; reflexivity.
Defined.

Lemma init_silent_witness :
  init Demo.three_runs "logs/" false false = Ok (Demo.sorted_three, [])
  /\ @nil string = [].
Proof.
  split; [ vm_compute; reflexivity | ].
  apply (init_silent Demo.three_runs "logs/" false Demo.sorted_three).
  vm_compute; reflexivity.
Defined.

Lemma sortStats_succeeds_iff_witness :
  exists s', sortStats Demo.three_runs Demo.collected_three = Ok s'.
Proof.
  apply (proj2 (sortStats_succeeds_iff Demo.three_runs Demo.collected_three
                  (fun v => proj1 (argsort_stable_spec v)))).
  repeat split;
    try (intros t Ht; repeat (destruct Ht as [ <- | Ht ]; [ discriminate | ]);
         destruct Ht);
    try (cbn; lia); try discriminate.
Defined.

Lemma sortStats_too_few_witness :
  sortStats Demo.three_runs Demo.collected_double = Raise IndexError
  /\ sortStats Demo.three_runs Demo.collected_few_gpus = Raise IndexError.
Proof.
  assert (Hperm : forall v, Permutation (np_argsort Demo.three_runs v)
                                        (seq 0 (length v)))
    by (intros v; apply (argsort_stable_spec v)).
  split.
  - refine (proj1 (sortStats_too_few Demo.three_runs Demo.collected_double
                     Hperm _ _ _) _);
      try (intros t Ht; repeat (destruct Ht as [ <- | Ht ]; [ discriminate | ]);
           destruct Ht).
    cbn; lia.
  - refine (proj2 (sortStats_too_few Demo.three_runs Demo.collected_few_gpus
                     Hperm _ _ _) _ _ _ _ _ _);
      try (intros t Ht; repeat (destruct Ht as [ <- | Ht ]; [ discriminate | ]);
           destruct Ht);
      try reflexivity; cbn; lia.
Defined.

Lemma sortStats_permutes_witness :
  sortStats Demo.three_runs Demo.collected_three = Ok Demo.sorted_three
  /\ Permutation
       (rows (files Demo.sorted_three) (nprocs Demo.sorted_three)
             (nthreads Demo.sorted_three) (performance Demo.sorted_three))
       (rows (files Demo.collected_three) [4; 4; 4]%Z [2; 4; 2]%Z
             [21 # 2; 26 # 5; 20 # 1])
  /\ (gpuruns Demo.collected_three = true ->
      forall gpus,
        mapM (convert Ref.int_of_token) (ngpus Demo.collected_three) = Ok gpus ->
        Permutation (combine (ngpus Demo.sorted_three)
                             (performance Demo.sorted_three))
                    (combine gpus [21 # 2; 26 # 5; 20 # 1])).
Proof.
  split; [ vm_compute; reflexivity | ].
  apply (sortStats_permutes Demo.three_runs Demo.collected_three
           Demo.sorted_three [4; 4; 4]%Z [2; 4; 2]%Z [21 # 2; 26 # 5; 20 # 1]);
    try (vm_compute; reflexivity).
  apply (proj1 (argsort_stable_spec [21 # 2; 26 # 5; 20 # 1])).
Defined.

Lemma subdivideomp_after_init_witness :
  init Demo.three_runs "logs/" false false = Ok (Demo.sorted_three, [])
  /\ exists out',
       subdivideomp Demo.three_runs (Flat Demo.sorted_three)
       = Ok (if (1 <? length (set_iter Demo.three_runs
                                (nthreads Demo.sorted_three)))%nat
             then Nested (subdivided (set_iter Demo.three_runs
                                        (nthreads Demo.sorted_three))
                                     Demo.sorted_three)
             else Flat Demo.sorted_three, out').
Proof.
  split; [ vm_compute; reflexivity | ].
  apply (subdivideomp_after_init Demo.three_runs "logs/" false false
           Demo.sorted_three []).
  - vm_compute; reflexivity.
  - discriminate.
Defined.

Lemma subdivideomp_unchanged_iff_uniform_witness :
  uniform (nthreads Demo.sorted_uniform)
  /\ subdivideomp Demo.three_runs (Flat Demo.sorted_uniform)
     = Ok (Flat Demo.sorted_uniform, [subdividing_msg 1; no_subdivision_msg]).
Proof.
  assert (Hu : uniform (nthreads Demo.sorted_uniform)).
  { intros x y [ <- | [ <- | [] ] ] [ <- | [ <- | [] ] ]; reflexivity. }
  split; [ exact Hu | ].
  apply (proj2 (subdivideomp_unchanged_iff_uniform Demo.three_runs
                  Demo.sorted_uniform (first_seen_spec [2; 2]%Z)
                  ltac:(discriminate))).
  exact Hu.
Defined.

Lemma well_formed_sorted_three : well_formed Demo.sorted_three.
Proof. repeat split; try reflexivity. discriminate. Qed.

Lemma subdivided_sorted_three :
  subdivideomp Demo.three_runs (Flat Demo.sorted_three)
  = Ok (Nested Demo.nested_three, [subdividing_msg 2]).
Proof. vm_compute; reflexivity. Qed.

Lemma subdivideomp_bucket_shapes_witness :
  map (@length string) (files Demo.nested_three)
  = map (@length Z) (nthreads Demo.nested_three)
  /\ map (@length Z) (nprocs Demo.nested_three)
     = map (@length Z) (nthreads Demo.nested_three)
  /\ map (@length Q) (performance Demo.nested_three)
     = map (@length Z) (nthreads Demo.nested_three)
  /\ map (@length Z) (ncpus Demo.nested_three)
     = map (@length Z) (nthreads Demo.nested_three)
  /\ (gpuruns Demo.sorted_three = true ->
      map (@length Z) (ngpus Demo.nested_three)
      = map (@length Z) (nthreads Demo.nested_three))
  /\ Forall2 (fun omp b => b <> [] /\ forall x, In x b -> x = omp)
             [4; 2]%Z (nthreads Demo.nested_three).
Proof.
  exact (subdivideomp_bucket_shapes Demo.three_runs Demo.sorted_three
           Demo.nested_three _ well_formed_sorted_three
           (first_seen_spec [4; 2; 2]%Z) subdivided_sorted_three).
Defined.

Lemma subdivideomp_permutes_witness :
  Permutation (concat (files Demo.nested_three)) (files Demo.sorted_three)
  /\ Permutation (concat (nprocs Demo.nested_three)) (nprocs Demo.sorted_three)
  /\ Permutation (concat (nthreads Demo.nested_three))
                 (nthreads Demo.sorted_three)
  /\ Permutation (concat (performance Demo.nested_three))
                 (performance Demo.sorted_three)
  /\ Permutation (concat (ncpus Demo.nested_three)) (ncpus Demo.sorted_three)
  /\ (gpuruns Demo.sorted_three = true ->
      Permutation (concat (ngpus Demo.nested_three)) (ngpus Demo.sorted_three)).
Proof.
  exact (subdivideomp_permutes Demo.three_runs Demo.sorted_three
           Demo.nested_three _ well_formed_sorted_three
           (first_seen_spec [4; 2; 2]%Z) subdivided_sorted_three).
Defined.

Lemma sorted_three_ascending : Sorted Qle (performance Demo.sorted_three).
Proof. repeat constructor; unfold Qle; cbn; lia. Qed.

Lemma subdivideomp_keeps_order_witness :
  Sorted Qle (performance Demo.sorted_three)
  /\ Forall (Sorted Qle) (performance Demo.nested_three).
Proof.
  split; [ exact sorted_three_ascending | ].
  exact (subdivideomp_keeps_order Demo.three_runs Demo.sorted_three
           Demo.nested_three _ well_formed_sorted_three
           subdivided_sorted_three sorted_three_ascending).
Defined.

Lemma cpus_consistent_sorted_three : cpus_consistent Demo.sorted_three.
Proof.
  intros [ | [ | [ | i ] ] ] p t Hp Ht; cbn in Hp, Ht;
    try (injection Hp as <-; injection Ht as <-; reflexivity).
  now destruct i.
Qed.

Lemma subdivideomp_keeps_products_witness :
  cpus_consistent Demo.sorted_three
  /\ forall b j p t,
       at2 (nprocs Demo.nested_three) b j = Some p ->
       at2 (nthreads Demo.nested_three) b j = Some t ->
       at2 (ncpus Demo.nested_three) b j = Some (np_mul p t).
Proof.
  split; [ exact cpus_consistent_sorted_three | ].
  exact (subdivideomp_keeps_products Demo.three_runs Demo.sorted_three
           Demo.nested_three _ well_formed_sorted_three
           subdivided_sorted_three cpus_consistent_sorted_three).
Defined.

Lemma str_counts_witness :
  init Demo.three_runs "logs/" false false = Ok (Demo.sorted_three, [])
  /\ __str__ (Flat Demo.sorted_three)
     = "PerformanceStats object containing data from 3 files."%string
  /\ __str__ (Nested Demo.nested_three)
     = "PerformanceStats object containing data from 2 files."%string.
Proof.
  assert (H : init Demo.three_runs "logs/" false false
              = Ok (Demo.sorted_three, [])) by (vm_compute; reflexivity).
  split; [ exact H | ].
  destruct (str_counts Demo.three_runs _ _ _ _ _ H) as [H1 H2].
  split; [ exact H1 | ].
  exact (H2 _ _ subdivided_sorted_three).
Defined.

Lemma sortStats_value_error_witness :
  sortStats Demo.three_runs Demo.collected_bad_count
  = Raise (ValueError "four")
  /\ In "four"%string (nprocs Demo.collected_bad_count)
  /\ py_int Demo.three_runs "four" = None.
Proof.
  assert (H : sortStats Demo.three_runs Demo.collected_bad_count
              = Raise (ValueError "four")) by (vm_compute; reflexivity).
  split; [ exact H | ].
  destruct (sortStats_value_error Demo.three_runs _ _ H)
    as [ Hp | [ [Hin _] | [ [Hin _] | [G _] ] ] ].
  - exact Hp.
  - exfalso. destruct Hin as [ E | [] ]. discriminate E.
  - exfalso. destruct Hin as [ E | [] ]. discriminate E.
  - discriminate G.
Defined.

Lemma init_files_listed_witness :
  init Demo.three_runs "logs/" false false = Ok (Demo.sorted_three, [])
  /\ path Demo.sorted_three = "logs/"%string
  /\ gpuruns Demo.sorted_three = false
  /\ verbose Demo.sorted_three = false
  /\ exists names,
       listdir Demo.three_runs "logs/" = Some names
       /\ forall f, In f (files Demo.sorted_three) ->
            In f names /\ PyStr.contains ".log" f = true.
Proof.
  split; [ vm_compute; reflexivity | ].
  apply (init_files_listed Demo.three_runs "logs/" false false
           Demo.sorted_three []).
  vm_compute; reflexivity.
Defined.
